(** * LS-8 emulator: a shallow embedding of [src/project/ls8/cpu.js]

    The class [CPU] of cpu.js is embedded as a record of its fields and one
    state-passing function per method.  JavaScript values that the
    emulator can hold in a register, a memory cell or a special register
    are [undefined] and numbers; they are embedded as [jsval].  *)

From Stdlib Require Import ZArith QArith Qreduction Qcanon Bool List String Lia.
Import ListNotations.
Local Open Scope Z_scope.

(** ** JavaScript values

    A JavaScript number is an IEEE-754 double.  The embedding keeps the
    values that are not finite ([NaN], the two infinities), the sign of
    zero, and represents a finite number by its exact value: an integer
    ([Int]) or a fraction ([Frac]).  Arithmetic is exact, which is what the
    double arithmetic computes whenever the exact result is representable
    (every integer of magnitude up to 2^53 is). *)
Inductive jsval : Type :=
| Undefined
| NaN
| Infinity (neg : bool)
| NegZero
| Int (z : Z)
| Frac (q : Q).

(** The result of the abstract operation ToNumber: not a number, an
    infinity with its sign, or a finite value with its sign bit (the sign
    bit is what distinguishes the two zeros). *)
Inductive number : Type :=
| nan
| inf (neg : bool)
| fin (neg : bool) (q : Q).

Definition ToNumber (v : jsval) : number :=
  match v with
  | Undefined => nan
  | NaN => nan
  | Infinity s => inf s
  | NegZero => fin true 0%Q
  | Int z => fin (z <? 0) (inject_Z z)
  | Frac q => fin (Qnum q <? 0) q
  end.

Definition is_zero (q : Q) : bool := Qnum q =? 0.

(** A finite result as a value: zero keeps the sign bit [s], an integral
    value becomes [Int], anything else a reduced [Frac]. *)
Definition from_fin (s : bool) (q : Q) : jsval :=
  let r := Qred q in
  if is_zero r then (if s then NegZero else Int 0)
  else if (Qden r =? 1)%positive then Int (Qnum r)
  else Frac r.

Definition from_number (n : number) : jsval :=
  match n with
  | nan => NaN
  | inf s => Infinity s
  | fin s q => from_fin s q
  end.

Definition num_neg (n : number) : number :=
  match n with
  | nan => nan
  | inf s => inf (negb s)
  | fin s q => fin (negb s) (- q)%Q
  end.

(** [x + y] on numbers.  A zero sum is negative only when both summands are
    negative zeros. *)
Definition num_add (x y : number) : number :=
  match x, y with
  | nan, _ | _, nan => nan
  | inf s, inf t => if Bool.eqb s t then inf s else nan
  | inf s, fin _ _ => inf s
  | fin _ _, inf t => inf t
  | fin s p, fin t q => fin (is_zero p && s && is_zero q && t) (p + q)%Q
  end.

(** [x * y]: the sign is the exclusive or of the signs. *)
Definition num_mul (x y : number) : number :=
  match x, y with
  | nan, _ | _, nan => nan
  | inf s, inf t => inf (xorb s t)
  | inf s, fin t q => if is_zero q then nan else inf (xorb s t)
  | fin s p, inf t => if is_zero p then nan else inf (xorb s t)
  | fin s p, fin t q => fin (xorb s t) (p * q)%Q
  end.

(** [x / y]: a finite non-zero value over zero is an infinity, zero over
    zero is not a number. *)
Definition num_div (x y : number) : number :=
  match x, y with
  | nan, _ | _, nan => nan
  | inf s, inf t => nan
  | inf s, fin t _ => inf (xorb s t)
  | fin s _, inf t => fin (xorb s t) 0%Q
  | fin s p, fin t q =>
      if is_zero q then (if is_zero p then nan else inf (xorb s t))
      else fin (xorb s t) (p / q)%Q
  end.

(** Truncation toward zero of a rational. *)
Definition Qtrunc (q : Q) : Z := Z.quot (Qnum q) (Zpos (Qden q)).

(** [x % y]: the remainder of the truncating division, with the sign of
    the dividend. *)
Definition num_mod (x y : number) : number :=
  match x, y with
  | nan, _ | _, nan => nan
  | inf _, _ => nan
  | fin s p, inf _ => fin s p
  | fin s p, fin t q =>
      if is_zero q then nan
      else fin s (p - q * inject_Z (Qtrunc (p / q)))%Q
  end.

(** ToInt32: the operand conversion of the bit operators. *)
Definition wrap32 (z : Z) : Z := (z + 2 ^ 31) mod 2 ^ 32 - 2 ^ 31.

Definition ToInt32 (v : jsval) : Z :=
  match ToNumber v with
  | nan | inf _ => 0
  | fin _ q => wrap32 (Qtrunc q)
  end.

(** The operators of the source, on values. *)
Definition js_add (a b : jsval) : jsval :=
  from_number (num_add (ToNumber a) (ToNumber b)).
Definition js_sub (a b : jsval) : jsval :=
  from_number (num_add (ToNumber a) (num_neg (ToNumber b))).
Definition js_mul (a b : jsval) : jsval :=
  from_number (num_mul (ToNumber a) (ToNumber b)).
Definition js_div (a b : jsval) : jsval :=
  from_number (num_div (ToNumber a) (ToNumber b)).
Definition js_mod (a b : jsval) : jsval :=
  from_number (num_mod (ToNumber a) (ToNumber b)).
Definition js_and (a b : jsval) : jsval := Int (Z.land (ToInt32 a) (ToInt32 b)).
Definition js_or (a b : jsval) : jsval := Int (Z.lor (ToInt32 a) (ToInt32 b)).
Definition js_xor (a b : jsval) : jsval := Int (Z.lxor (ToInt32 a) (ToInt32 b)).
Definition js_not (a : jsval) : jsval := Int (Z.lnot (ToInt32 a)).
Definition js_shr (a : jsval) (n : Z) : jsval := Int (Z.shiftr (ToInt32 a) n).

Definition num_eqb (x y : number) : bool :=
  match x, y with
  | inf s, inf t => Bool.eqb s t
  | fin _ p, fin _ q => Qeq_bool p q
  | _, _ => false
  end.

Definition num_ltb (x y : number) : bool :=
  match x, y with
  | nan, _ | _, nan => false
  | inf s, inf t => s && negb t
  | inf s, fin _ _ => s
  | fin _ _, inf t => negb t
  | fin _ p, fin _ q => negb (Qle_bool q p)
  end.

(** [a === b] on values that are [undefined] or numbers. *)
Definition strict_eq (a b : jsval) : bool :=
  match a, b with
  | Undefined, Undefined => true
  | Undefined, _ | _, Undefined => false
  | _, _ => num_eqb (ToNumber a) (ToNumber b)
  end.
Definition js_lt (a b : jsval) : bool := num_ltb (ToNumber a) (ToNumber b).
Definition js_gt (a b : jsval) : bool := num_ltb (ToNumber b) (ToNumber a).

Definition is_undefined (v : jsval) : bool :=
  match v with Undefined => true | _ => false end.

(** ** Objects indexed by values

    [this.reg] is an Array used as an object: [this.reg[k]] reads the
    property whose name is the string of [k], and an assignment to an index
    outside the array creates the property.  Two values name the same
    property when their strings are equal. *)
Definition key_eqb (a b : jsval) : bool :=
  match a, b with
  | Undefined, Undefined => true
  | Undefined, _ | _, Undefined => false
  | _, _ =>
      match ToNumber a, ToNumber b with
      | nan, nan => true
      | inf s, inf t => Bool.eqb s t
      | fin _ p, fin _ q => Qeq_bool p q
      | _, _ => false
      end
  end.

Definition obj (A : Type) : Type := list (jsval * A).

Fixpoint lookup {A : Type} (o : obj A) (k : jsval) : option A :=
  match o with
  | [] => None
  | (k', v) :: o' => if key_eqb k k' then Some v else lookup o' k
  end.

(** [o[k]]: a property that is absent reads as [undefined]. *)
Definition get (o : obj jsval) (k : jsval) : jsval :=
  match lookup o k with
  | Some v => v
  | None => Undefined
  end.

(** [o[k] = v] *)
Definition put {A : Type} (o : obj A) (k : jsval) (v : A) : obj A :=
  (k, v) :: o.

(** [new Array(n).fill(v)] *)
Definition Array_fill (n : nat) (v : jsval) : obj jsval :=
  map (fun i => (Int (Z.of_nat i), v)) (seq 0 n).

(** ** Collaborators *)

(** Modelled from the spec: the memory collaborator [ram] (the class behind
    [this.ram] is not part of cpu.js).  A flat store addressed by value:
    [read] returns the value last written at the address, [undefined] where
    nothing was written. *)
Module RAM.
Definition t : Type := obj jsval.
Definition read (m : t) (address : jsval) : jsval := get m address.
Definition write (m : t) (address value : jsval) : t := put m address value.
End RAM.

(** What the emulator sends to the console. *)
Inductive event : Type :=
| console_log (v : jsval)                       (* console.log(v) *)
| console_error (msg : string) (v : jsval)      (* console.error(msg, v) *)
| console_error_cat (msg : string) (v : jsval). (* console.error(msg + v) *)

(** ** Instructions *)
Module Op.
Definition HLT : Z := 1.    (* 0b00000001 *)
Definition ADD : Z := 168.  (* 0b10101000 *)
Definition MUL : Z := 170.  (* 0b10101010 *)
Definition LDI : Z := 153.  (* 0b10011001 *)
Definition PRN : Z := 67.   (* 0b01000011 *)
Definition POP : Z := 76.   (* 0b01001100 *)
Definition PUSH : Z := 77.  (* 0b01001101 *)
Definition CALL : Z := 72.  (* 0b01001000 *)
Definition RET : Z := 9.    (* 0b00001001 *)
Definition AND : Z := 179.  (* 0b10110011 *)
Definition NOP : Z := 0.    (* 0b00000000 *)
Definition INC : Z := 120.  (* 0b01111000 *)
Definition DEC : Z := 121.  (* 0b01111001 *)
Definition DIV : Z := 171.  (* 0b10101011 *)
Definition CMP : Z := 160.  (* 0b10100000 *)
Definition JEQ : Z := 81.   (* 0b01010001 *)
Definition JNE : Z := 82.   (* 0b01010010 *)
Definition JMP : Z := 80.   (* 0b01010000 *)
Definition MOD : Z := 172.  (* 0b10101100 *)
Definition NOT : Z := 112.  (* 0b01110000 *)
Definition OR : Z := 177.   (* 0b10110001 *)
Definition SUB : Z := 169.  (* 0b10101001 *)
Definition XOR : Z := 178.  (* 0b10110010 *)
End Op.

(** The operation names that [alu] switches on. *)
Module ALU.
Inductive op : Type :=
| ADD | MUL | AND | INC | DEC | DIV | CMP | MOD | NOT | OR | SUB | XOR.
End ALU.

(** ** The class [CPU] *)
Module CPU.

(** The fields of a CPU object.  [reg] is the array of general-purpose
    registers; its named properties [PC], [IR] and [FL] are fields of
    their own (no operand names them: an operand is a number or
    [undefined]).  [clock] tells whether the interval timer started by
    [startClock] is still set; [console] is what was printed so far. *)
Record t : Type := mk {
  ram : RAM.t;
  reg : obj jsval;
  PC : jsval;
  IR : jsval;
  FL : jsval;
  clock : bool;
  console : list event
}.

Definition set_ram (s : t) (m : RAM.t) : t :=
  mk m (reg s) (PC s) (IR s) (FL s) (clock s) (console s).
Definition set_reg (s : t) (r : obj jsval) : t :=
  mk (ram s) r (PC s) (IR s) (FL s) (clock s) (console s).
Definition set_PC (s : t) (v : jsval) : t :=
  mk (ram s) (reg s) v (IR s) (FL s) (clock s) (console s).
Definition set_IR (s : t) (v : jsval) : t :=
  mk (ram s) (reg s) (PC s) v (FL s) (clock s) (console s).
Definition set_FL (s : t) (v : jsval) : t :=
  mk (ram s) (reg s) (PC s) (IR s) v (clock s) (console s).
Definition set_clock (s : t) (b : bool) : t :=
  mk (ram s) (reg s) (PC s) (IR s) (FL s) b (console s).
Definition print (s : t) (e : event) : t :=
  mk (ram s) (reg s) (PC s) (IR s) (FL s) (clock s) (console s ++ [e]).

(** A handler is called with the two operands and returns the next PC,
    or [undefined]. *)
Definition handler : Type := jsval -> jsval -> t -> t * jsval.

Section Methods.

(** The register index [SP].  cpu.js uses the name without declaring
    it; it is a parameter of the embedding. *)
Variable SP : Z.

Definition poke (address value : jsval) (s : t) : t :=
  set_ram s (RAM.write (ram s) address value).

Definition startClock (s : t) : t := set_clock s true.

Definition stopClock (s : t) : t := set_clock s false.

Definition HLT (_ _ : jsval) (s : t) : t * jsval :=
  (stopClock s, Undefined).

Definition alu (op : ALU.op) (regA regB : jsval) (s : t) : t :=
  match op with
  | ALU.ADD =>
      set_reg s (put (reg s) regA (js_add (get (reg s) regA) (get (reg s) regB)))
  | ALU.MUL =>
      set_reg s (put (reg s) regA (js_mul (get (reg s) regA) (get (reg s) regB)))
  | ALU.AND =>
      set_reg s (put (reg s) regA (js_and (get (reg s) regA) (get (reg s) regB)))
  | ALU.INC =>
      set_reg s (put (reg s) regA (js_and (js_add (get (reg s) regA) (Int 1)) (Int 255)))
  | ALU.DEC =>
      set_reg s (put (reg s) regA (js_sub (get (reg s) regA) (Int 1)))
  | ALU.DIV =>
      let s1 :=
        if strict_eq (get (reg s) regB) (Int 0)
        then fst (HLT Undefined Undefined
                    (print s (console_error "Divider cannot be zero" (get (reg s) regB))))
        else s in
      set_reg s1 (put (reg s1) regA (js_div (get (reg s1) regA) (get (reg s1) regB)))
  | ALU.CMP =>
      let s1 :=
        if strict_eq (get (reg s) regA) (get (reg s) regB)
        then set_FL s (js_or (FL s) (Int 1)) else s in
      let s2 :=
        if js_gt (get (reg s1) regA) (get (reg s1) regB)
        then set_FL s1 (js_or (FL s1) (Int 2)) else s1 in
      if js_lt (get (reg s2) regA) (get (reg s2) regB)
      then set_FL s2 (js_or (FL s2) (Int 4)) else s2
  | ALU.MOD =>
      let s1 :=
        if strict_eq (get (reg s) regB) (Int 0)
        then fst (HLT Undefined Undefined
                    (print s (console_error "Divder cannot be zeor" (get (reg s) regB))))
        else s in
      set_reg s1 (put (reg s1) regA (js_mod (get (reg s1) regA) (get (reg s1) regB)))
  | ALU.NOT =>
      set_reg s (put (reg s) regA (js_not (get (reg s) regA)))
  | ALU.OR =>
      set_reg s (put (reg s) regA (js_or (get (reg s) regA) (get (reg s) regB)))
  | ALU.SUB =>
      set_reg s (put (reg s) regA (js_sub (get (reg s) regA) (get (reg s) regB)))
  | ALU.XOR =>
      set_reg s (put (reg s) regA (js_xor (get (reg s) regA) (get (reg s) regB)))
  end.

Definition ADD (regA regB : jsval) (s : t) : t * jsval :=
  (alu ALU.ADD regA regB s, Undefined).

Definition LDI (regNum value : jsval) (s : t) : t * jsval :=
  (set_reg s (put (reg s) regNum value), Undefined).

Definition MUL (regA regB : jsval) (s : t) : t * jsval :=
  (alu ALU.MUL regA regB s, Undefined).

Definition _pop (s : t) : t * jsval :=
  let val := RAM.read (ram s) (get (reg s) (Int SP)) in
  (alu ALU.INC (Int SP) Undefined s, val).

Definition POP (regA _ : jsval) (s : t) : t * jsval :=
  let (s1, val) := _pop s in
  (set_reg s1 (put (reg s1) regA val), Undefined).

Definition _push (val : jsval) (s : t) : t :=
  let s1 := alu ALU.DEC (Int SP) Undefined s in
  set_ram s1 (RAM.write (ram s1) (get (reg s1) (Int SP)) val).

Definition PUSH (regA _ : jsval) (s : t) : t * jsval :=
  (_push (get (reg s) regA) s, Undefined).

Definition CALL (regA _ : jsval) (s : t) : t * jsval :=
  (s, get (reg s) regA).

Definition RET (_ _ : jsval) (s : t) : t * jsval :=
  let (s1, value) := _pop s in (s1, value).

Definition AND (regA regB : jsval) (s : t) : t * jsval :=
  (alu ALU.AND regA regB s, Undefined).

Definition NOP (_ _ : jsval) (s : t) : t * jsval := (s, Undefined).

Definition INC (regA _ : jsval) (s : t) : t * jsval :=
  (alu ALU.INC regA Undefined s, Undefined).

Definition DEC (regA _ : jsval) (s : t) : t * jsval :=
  (alu ALU.DEC regA Undefined s, Undefined).

Definition DIV (regA regB : jsval) (s : t) : t * jsval :=
  (alu ALU.DIV regA regB s, Undefined).

Definition CMP (regA regB : jsval) (s : t) : t * jsval :=
  (alu ALU.CMP regA regB s, Undefined).

Definition JEQ (regA _ : jsval) (s : t) : t * jsval :=
  if strict_eq (FL s) (Int 1) then (s, get (reg s) regA) else (s, Undefined).

Definition JMP (regA _ : jsval) (s : t) : t * jsval :=
  (s, get (reg s) regA).

Definition JNE (regA _ : jsval) (s : t) : t * jsval :=
  if strict_eq (FL s) (Int 0) then (s, get (reg s) regA) else (s, Undefined).

Definition MOD (regA regB : jsval) (s : t) : t * jsval :=
  (alu ALU.MOD regA regB s, Undefined).

Definition NOT (regA _ : jsval) (s : t) : t * jsval :=
  (alu ALU.NOT regA Undefined s, Undefined).

Definition OR (regA regB : jsval) (s : t) : t * jsval :=
  (alu ALU.OR regA regB s, Undefined).

Definition SUB (regA regB : jsval) (s : t) : t * jsval :=
  (alu ALU.SUB regA regB s, Undefined).

Definition XOR (regA regB : jsval) (s : t) : t * jsval :=
  (alu ALU.XOR regA regB s, Undefined).

Definition PRN (regA _ : jsval) (s : t) : t * jsval :=
  (print s (console_log (get (reg s) regA)), Undefined).

(** [setupBranchTable]: the assignments in the order of the source,
    the last one first. *)
Definition branchTable : obj handler :=
  [ (Int Op.XOR, XOR); (Int Op.SUB, SUB); (Int Op.OR, OR);
    (Int Op.NOT, NOT); (Int Op.MOD, MOD); (Int Op.JNE, JNE);
    (Int Op.JMP, JMP); (Int Op.JEQ, JEQ); (Int Op.CMP, CMP);
    (Int Op.DIV, DIV); (Int Op.DEC, DEC); (Int Op.INC, INC);
    (Int Op.NOP, NOP); (Int Op.AND, AND); (Int Op.RET, RET);
    (Int Op.CALL, CALL); (Int Op.PUSH, PUSH); (Int Op.POP, POP);
    (Int Op.PRN, PRN); (Int Op.LDI, LDI); (Int Op.MUL, MUL);
    (Int Op.ADD, ADD); (Int Op.HLT, HLT) ].

(** [new CPU(ram)].  The constructor assigns [PC] and [IR]; it does not
    assign [FL], which therefore reads as [undefined]. *)
Definition constructor (ram : RAM.t) : t :=
  mk ram (put (Array_fill 8 (Int 0)) (Int SP) (Int 0xf4))
     (Int 0) (Int 0) Undefined false [].

(** The number of operand bytes that the opcode encodes. *)
Definition operands (ir : jsval) : jsval := js_and (js_shr ir 6) (Int 3).

Definition tick (s : t) : t :=
  let s := set_IR s (RAM.read (ram s) (PC s)) in
  match lookup branchTable (IR s) with
  | None =>
      stopClock (print s (console_error_cat "Unknown opcode " (IR s)))
  | Some handler =>
      let operandA := RAM.read (ram s) (js_add (PC s) (Int 1)) in
      let operandB := RAM.read (ram s) (js_add (PC s) (Int 2)) in
      let (s1, nextPC) := handler operandA operandB s in
      if is_undefined nextPC
      then set_PC s1 (js_add (PC s1) (js_add (operands (IR s1)) (Int 1)))
      else set_PC s1 nextPC
  end.

(** The interval timer of [startClock] calls [tick] for as long as it
    is set; [n] bounds the number of times it fires. *)
Fixpoint run (n : nat) (s : t) : t :=
  match n with
  | O => s
  | S n' => if clock s then run n' (tick s) else s
  end.

End Methods.

End CPU.

(** The operand count of the source, [((IR >> 6) & 0b11)], as an integer. *)
Definition operand_count (ir : jsval) : Z := Z.land (Z.shiftr (ToInt32 ir) 6) 3.

(** The values that FL takes: [undefined], or some of the three flags. *)
Definition flags_set (v : jsval) : Prop :=
  v = Undefined \/ exists f : Z, v = Int f /\ 1 <= f < 8.

(** ** Programs *)

(** Modelled from the spec: the program loading collaborator (not part of
    cpu.js), which calls [poke] with the bytes of a program at the
    addresses 0, 1, 2, ... before the clock is started. *)
Fixpoint load (program : list Z) (address : Z) (s : CPU.t) : CPU.t :=
  match program with
  | [] => s
  | byte :: rest => load rest (address + 1) (CPU.poke (Int address) (Int byte) s)
  end.

(** A CPU constructed on the memory [m], loaded and started. *)
Definition boot (SP : Z) (m : RAM.t) (program : list Z) : CPU.t :=
  CPU.startClock (load program 0 (CPU.constructor SP m)).

(** LDI R0,8; LDI R1,9; MUL R0,R1; PRN R0; HLT *)
Definition mult_program : list Z :=
  [Op.LDI; 0; 8; Op.LDI; 1; 9; Op.MUL; 0; 1; Op.PRN; 0; Op.HLT].

(** LDI R0,200; LDI R1,100; ADD R0,R1; HLT *)
Definition add_program : list Z :=
  [Op.LDI; 0; 200; Op.LDI; 1; 100; Op.ADD; 0; 1; Op.HLT].

(** LDI R0,255; INC R0; HLT *)
Definition inc_program : list Z :=
  [Op.LDI; 0; 255; Op.INC; 0; Op.HLT].

(** LDI R0,0; DEC R0; HLT *)
Definition dec_program : list Z :=
  [Op.LDI; 0; 0; Op.DEC; 0; Op.HLT].

(** LDI R0,5; LDI R1,3; LDI R2,40; CMP R0,R1; JNE R2; HLT *)
Definition jne_program : list Z :=
  [Op.LDI; 0; 5; Op.LDI; 1; 3; Op.LDI; 2; 40; Op.CMP; 0; 1; Op.JNE; 2; Op.HLT].

(** LDI R0,5; LDI R1,5; LDI R2,40; CMP R0,R1; LDI R1,3; CMP R0,R1; JEQ R2; HLT *)
Definition jeq_program : list Z :=
  [Op.LDI; 0; 5; Op.LDI; 1; 5; Op.LDI; 2; 40; Op.CMP; 0; 1;
   Op.LDI; 1; 3; Op.CMP; 0; 1; Op.JEQ; 2; Op.HLT].

(** LDI R0,6; JMP R0; NOP; HLT *)
Definition jmp_program : list Z :=
  [Op.LDI; 0; 6; Op.JMP; 0; Op.NOP; Op.HLT].

(** LDI R0,10; LDI R1,0; DIV R0,R1; HLT *)
Definition div_program : list Z :=
  [Op.LDI; 0; 10; Op.LDI; 1; 0; Op.DIV; 0; 1; Op.HLT].

(** LDI R0,10; LDI R1,0; MOD R0,R1; HLT *)
Definition mod_program : list Z :=
  [Op.LDI; 0; 10; Op.LDI; 1; 0; Op.MOD; 0; 1; Op.HLT].

(** A byte that is no opcode. *)
Definition unknown_program : list Z := [255].

(** LDI R7,128; ADD R7,R7; PUSH R0; POP R0; HLT *)
Definition stack_program : list Z :=
  [Op.LDI; 7; 128; Op.ADD; 7; 7; Op.PUSH; 0; Op.POP; 0; Op.HLT].

(** ** The skeleton CPU

    The second class of the file: the CPU before the stack, the flags and
    the jumps were added.  Its object has the fields of the full one but
    [FL], which nothing assigns or reads; its handlers return nothing and
    [tick] always advances PC past the operands. *)
Module Skeleton.

(** [alu] switches on two operation names; any other name matches no case
    and does nothing. *)
Definition alu (op : ALU.op) (regA regB : jsval) (s : CPU.t) : CPU.t :=
  match op with
  | ALU.ADD =>
      CPU.set_reg s (put (CPU.reg s) regA
                       (js_add (get (CPU.reg s) regA) (get (CPU.reg s) regB)))
  | ALU.MUL =>
      CPU.set_reg s (put (CPU.reg s) regA
                       (js_mul (get (CPU.reg s) regA) (get (CPU.reg s) regB)))
  | _ => s
  end.

Definition ADD (regA regB : jsval) (s : CPU.t) : CPU.t * jsval :=
  (alu ALU.ADD regA regB s, Undefined).

Definition HLT (_ _ : jsval) (s : CPU.t) : CPU.t * jsval :=
  (CPU.stopClock s, Undefined).

Definition LDI (regNum value : jsval) (s : CPU.t) : CPU.t * jsval :=
  (CPU.set_reg s (put (CPU.reg s) regNum value), Undefined).

Definition MUL (regA regB : jsval) (s : CPU.t) : CPU.t * jsval :=
  (alu ALU.MUL regA regB s, Undefined).

Definition PRN (regA _ : jsval) (s : CPU.t) : CPU.t * jsval :=
  (CPU.print s (console_log (get (CPU.reg s) regA)), Undefined).

Definition branchTable : obj CPU.handler :=
  [ (Int Op.PRN, PRN); (Int Op.LDI, LDI); (Int Op.MUL, MUL);
    (Int Op.ADD, ADD); (Int Op.HLT, HLT) ].

Definition constructor (ram : RAM.t) : CPU.t :=
  CPU.mk ram (Array_fill 8 (Int 0)) (Int 0) (Int 0) Undefined false [].

Definition tick (s : CPU.t) : CPU.t :=
  let s := CPU.set_IR s (RAM.read (CPU.ram s) (CPU.PC s)) in
  match lookup branchTable (CPU.IR s) with
  | None =>
      CPU.stopClock
        (CPU.print s (console_error_cat "Unknown opcode " (CPU.IR s)))
  | Some handler =>
      let operandA := RAM.read (CPU.ram s) (js_add (CPU.PC s) (Int 1)) in
      let operandB := RAM.read (CPU.ram s) (js_add (CPU.PC s) (Int 2)) in
      let s1 := fst (handler operandA operandB s) in
      CPU.set_PC s1
        (js_add (CPU.PC s1) (js_add (CPU.operands (CPU.IR s1)) (Int 1)))
  end.

End Skeleton.

(** ** Vocabulary of the properties *)

(** The opcodes that [setupBranchTable] gives a handler. *)
Definition opcodes : list Z :=
  [Op.HLT; Op.ADD; Op.MUL; Op.LDI; Op.PRN; Op.POP; Op.PUSH; Op.CALL; Op.RET;
   Op.AND; Op.NOP; Op.INC; Op.DEC; Op.DIV; Op.CMP; Op.JEQ; Op.JMP; Op.JNE;
   Op.MOD; Op.NOT; Op.OR; Op.SUB; Op.XOR].

(** The ticks that stop the clock: the opcode is unknown, or HLT, or it is
    DIV or MOD and the divisor register holds zero. *)
Definition tick_stops (SP : Z) (s : CPU.t) : bool :=
  let ir := RAM.read (CPU.ram s) (CPU.PC s) in
  let operandB := RAM.read (CPU.ram s) (js_add (CPU.PC s) (Int 2)) in
  match lookup (CPU.branchTable SP) ir with
  | None => true
  | Some _ =>
      key_eqb ir (Int Op.HLT)
      || ((key_eqb ir (Int Op.DIV) || key_eqb ir (Int Op.MOD))
          && strict_eq (get (CPU.reg s) operandB) (Int 0))
  end.

(** A register that holds a byte. *)
Definition is_byte (z : Z) : Prop := 0 <= z <= 255.

(** * Properties *)

Ltac split_ifs :=
  repeat match goal with
         | |- context [if ?c then _ else _] => destruct c
         end.

(** ** Values and objects *)

Lemma from_fin_Z (s : bool) (z : Z) :
  from_fin s (inject_Z z) = if z =? 0 then (if s then NegZero else Int 0) else Int z.
Proof.
  unfold from_fin, inject_Z.
  rewrite Qred_identity by (cbn; apply Z.gcd_1_r).
  unfold is_zero; cbn.
  destruct (z =? 0); reflexivity.
Qed.

Lemma js_add_Int (a b : Z) : js_add (Int a) (Int b) = Int (a + b).
Proof.
  unfold js_add; cbn.
  replace (Qplus (inject_Z a) (inject_Z b)) with (inject_Z (a + b))
    by (unfold Qplus, inject_Z; cbn; f_equal; lia).
  rewrite from_fin_Z.
  replace (is_zero (inject_Z a) && (a <? 0)) with false
    by (unfold is_zero; cbn; destruct (Z.eqb_spec a 0); subst; [reflexivity|]; reflexivity).
  cbn. destruct (Z.eqb_spec (a + b) 0) as [->|]; reflexivity.
Qed.

Lemma js_sub_Int (a b : Z) : js_sub (Int a) (Int b) = Int (a - b).
Proof.
  unfold js_sub; cbn.
  replace (Qplus (inject_Z a) (Qopp (inject_Z b))) with (inject_Z (a - b))
    by (unfold Qplus, Qopp, inject_Z; cbn; f_equal; lia).
  rewrite from_fin_Z.
  replace (is_zero (inject_Z a) && (a <? 0)) with false
    by (unfold is_zero; cbn; destruct (Z.eqb_spec a 0); subst; reflexivity).
  cbn. destruct (Z.eqb_spec (a - b) 0) as [->|]; reflexivity.
Qed.

Lemma ToInt32_Int (z : Z) : ToInt32 (Int z) = wrap32 z.
Proof. unfold ToInt32, Qtrunc; cbn. now rewrite Z.quot_1_r. Qed.

Lemma wrap32_small (z : Z) : - 2 ^ 31 <= z < 2 ^ 31 -> wrap32 z = z.
Proof. intros H; unfold wrap32. rewrite Z.mod_small; lia. Qed.

Lemma key_eqb_refl (k : jsval) : key_eqb k k = true.
Proof.
  destruct k; cbn; try reflexivity.
  - apply Bool.eqb_reflx.
  - apply Qeq_bool_iff; reflexivity.
  - apply Qeq_bool_iff; reflexivity.
Qed.

Lemma key_eqb_sym (a b : jsval) : key_eqb a b = key_eqb b a.
Proof.
  assert (Q : forall p q, Qeq_bool p q = Qeq_bool q p).
  { intros p q. apply Bool.eq_true_iff_eq. rewrite !Qeq_bool_iff.
    split; intros H; symmetry; exact H. }
  destruct a as [| |sa| |za|qa], b as [| |sb| |zb|qb];
    cbn [key_eqb ToNumber]; try reflexivity; try apply Q.
  destruct sa, sb; reflexivity.
Qed.

Lemma key_eqb_trans (a b c : jsval) :
  key_eqb a b = true -> key_eqb b c = true -> key_eqb a c = true.
Proof.
  assert (Q : forall p q r, Qeq_bool p q = true -> Qeq_bool q r = true ->
                            Qeq_bool p r = true).
  { intros p q r. rewrite !Qeq_bool_iff. intros H1 H2. now rewrite H1. }
  destruct a as [| |sa| |za|qa], b as [| |sb| |zb|qb], c as [| |sc| |zc|qc];
    cbn [key_eqb ToNumber]; try discriminate; try reflexivity;
    try (intros H1 H2; exact (Q _ _ _ H1 H2)).
  destruct sa, sb, sc; cbn; congruence.
Qed.

(** Values that name the same property read the same. *)
Lemma lookup_key {A : Type} (o : obj A) (k k' : jsval) :
  key_eqb k k' = true -> lookup o k = lookup o k'.
Proof.
  intros H. induction o as [|[k0 v] o IH]; cbn; [reflexivity|].
  rewrite IH.
  destruct (key_eqb k k0) eqn:E, (key_eqb k' k0) eqn:E'; try reflexivity.
  - rewrite key_eqb_sym in H.
    now rewrite (key_eqb_trans _ _ _ H E) in E'.
  - now rewrite (key_eqb_trans _ _ _ H E') in E.
Qed.


Lemma get_put (o : obj jsval) (k k' v : jsval) :
  get (put o k v) k' = if key_eqb k' k then v else get o k'.
Proof. unfold get, put; cbn. destruct (key_eqb k' k); reflexivity. Qed.

Lemma lookup_In {A : Type} (o : obj A) (k : jsval) (v : A) :
  lookup o k = Some v -> exists k', In (k', v) o /\ key_eqb k k' = true.
Proof.
  induction o as [|[k0 v0] o IH]; cbn; [discriminate|].
  destruct (key_eqb k k0) eqn:E.
  - intros [= ->]. exists k0. auto.
  - intros H. destruct (IH H) as (k' & Hin & Hk). exists k'. auto.
Qed.

(** ** What the methods leave alone *)

Section Frame.

Variable SP : Z.



(** The entries of the branch table. *)
Lemma branchTable_cases (ir : jsval) (h : CPU.handler) :
  lookup (CPU.branchTable SP) ir = Some h ->
  exists op, In (Int op, h) (CPU.branchTable SP) /\ key_eqb ir (Int op) = true.
Proof.
  intros H. destruct (lookup_In _ _ _ H) as (k & Hin & Hk).
  assert (E : exists op, k = Int op).
  { cbn in Hin.
    repeat (destruct Hin as [Hin|Hin]; [inversion Hin; eexists; reflexivity|]).
    destruct Hin. }
  destruct E as (op & ->). eauto.
Qed.

Ltac table_cases Hin :=
  cbn in Hin;
  repeat (destruct Hin as [Hin|Hin]; [inversion Hin; subst; clear Hin|]);
  [..|destruct Hin].


(** No handler other than [CMP] writes [FL]. *)
Lemma handler_FL (op : Z) (h : CPU.handler) (a b : jsval) (s : CPU.t) :
  In (Int op, h) (CPU.branchTable SP) -> op <> Op.CMP ->
  CPU.FL (fst (h a b s)) = CPU.FL s.
Proof.
  intros Hin Hop. table_cases Hin; try (exfalso; apply Hop; reflexivity);
    try unfold CPU.JEQ, CPU.JNE; cbn; split_ifs; auto.
Qed.

(** Once the clock is stopped the timer fires no more. *)
Lemma run_stopped (n : nat) (s : CPU.t) :
  CPU.clock s = false -> CPU.run SP n s = s.
Proof. intros H. destruct n; cbn; [reflexivity|]. now rewrite H. Qed.

End Frame.

(** ** The fetch-decode-execute cycle *)

Lemma wrap32_range (z : Z) : - 2 ^ 31 <= wrap32 z < 2 ^ 31.
Proof.
  unfold wrap32.
  pose proof (Z.mod_pos_bound (z + 2 ^ 31) (2 ^ 32) ltac:(lia)). lia.
Qed.

Lemma ToInt32_range (v : jsval) : - 2 ^ 31 <= ToInt32 v < 2 ^ 31.
Proof.
  unfold ToInt32. destruct (ToNumber v); try apply wrap32_range; lia.
Qed.

(** A value that names the property of an integer converts to that
    integer. *)
Lemma ToInt32_key (v : jsval) (z : Z) :
  key_eqb v (Int z) = true -> ToInt32 v = wrap32 z.
Proof.
  destruct v as [| |sv| |zv|qv]; cbn [key_eqb ToNumber]; try discriminate.
  - rewrite Qeq_bool_iff. unfold Qeq; cbn. intros H.
    replace z with 0 by lia. reflexivity.
  - rewrite Qeq_bool_iff. unfold Qeq; cbn. intros H.
    replace z with zv by lia. apply ToInt32_Int.
  - rewrite Qeq_bool_iff. unfold Qeq; cbn. intros H.
    unfold ToInt32, Qtrunc; cbn [ToNumber].
    replace (Qnum qv) with (z * Zpos (Qden qv)) by lia.
    now rewrite Z.quot_mul.
Qed.

Lemma operands_count (ir : jsval) : CPU.operands ir = Int (operand_count ir).
Proof.
  unfold CPU.operands, operand_count, js_and, js_shr.
  rewrite !ToInt32_Int. f_equal.
  pose proof (ToInt32_range ir) as R.
  rewrite (wrap32_small 3) by lia.
  rewrite wrap32_small; [reflexivity|].
  rewrite Z.shiftr_div_pow2 by lia.
  split.
  - apply Z.div_le_lower_bound; lia.
  - apply Z.div_lt_upper_bound; lia.
Qed.



(** ** The flags *)

(** At most one of [a === b], [a > b] and [a < b] holds. *)
Lemma compare_exclusive (a b : jsval) :
  (strict_eq a b = true -> js_gt a b = false /\ js_lt a b = false) /\
  (js_gt a b = true -> js_lt a b = false).
Proof.
  assert (E : forall p q, Qeq_bool p q = true ->
                          Qle_bool p q = true /\ Qle_bool q p = true).
  { intros p q. rewrite Qeq_bool_iff, !Qle_bool_iff. intros H.
    rewrite H. split; apply Qle_refl. }
  assert (G : forall p q, negb (Qle_bool p q) = true -> Qle_bool q p = true).
  { intros p q H. apply Qle_bool_iff.
    destruct (Qlt_le_dec q p) as [L|L]; [now apply Qlt_le_weak|].
    apply Qle_bool_iff in L. now rewrite L in H. }
  unfold js_gt, js_lt.
  destruct a as [| |sa| |za|qa], b as [| |sb| |zb|qb];
    cbn [strict_eq ToNumber num_eqb num_ltb]; split;
    try discriminate; try (split; reflexivity); try reflexivity;
    try (intros H; destruct (E _ _ H) as [H1 H2]; rewrite H1, H2; now split);
    try (intros H; rewrite (G _ _ H); reflexivity).
  - destruct sa, sb; cbn; intros; try discriminate; auto.
  - destruct sa, sb; cbn; intros; try discriminate; auto.
  - now destruct sa.
  - now destruct sa.
  - now destruct sa.
  - now destruct sb.
  - now destruct sb.
  - now destruct sb.
Qed.

Lemma js_or_flags (f m : Z) :
  0 <= f < 8 -> 0 <= m < 8 ->
  js_or (Int f) (Int m) = Int (Z.lor f m) /\ m <= Z.lor f m < 8.
Proof.
  intros Hf Hm. unfold js_or. rewrite !ToInt32_Int, !wrap32_small by lia.
  split; [reflexivity|].
  assert (F : f = 0 \/ f = 1 \/ f = 2 \/ f = 3 \/ f = 4 \/ f = 5 \/ f = 6 \/ f = 7) by lia.
  assert (M : m = 0 \/ m = 1 \/ m = 2 \/ m = 3 \/ m = 4 \/ m = 5 \/ m = 6 \/ m = 7) by lia.
  repeat (destruct F as [->|F]); subst;
    repeat (destruct M as [->|M]); subst; cbn; lia.
Qed.

(** What CMP leaves in FL. *)
Lemma alu_CMP_FL (s : CPU.t) (regA regB : jsval) :
  CPU.FL (CPU.alu ALU.CMP regA regB s) =
    (if strict_eq (get (CPU.reg s) regA) (get (CPU.reg s) regB)
     then js_or (CPU.FL s) (Int 1)
     else if js_gt (get (CPU.reg s) regA) (get (CPU.reg s) regB)
     then js_or (CPU.FL s) (Int 2)
     else if js_lt (get (CPU.reg s) regA) (get (CPU.reg s) regB)
     then js_or (CPU.FL s) (Int 4)
     else CPU.FL s).
Proof.
  cbn [CPU.alu].
  destruct (compare_exclusive (get (CPU.reg s) regA) (get (CPU.reg s) regB))
    as [E G].
  destruct (strict_eq (get (CPU.reg s) regA) (get (CPU.reg s) regB)).
  - destruct (E eq_refl) as [Hg Hl]. cbn [CPU.reg CPU.set_FL].
    rewrite Hg. cbn [CPU.reg CPU.set_FL]. rewrite Hl. reflexivity.
  - destruct (js_gt (get (CPU.reg s) regA) (get (CPU.reg s) regB)).
    + cbn [CPU.reg CPU.set_FL]. rewrite (G eq_refl). reflexivity.
    + destruct (js_lt (get (CPU.reg s) regA) (get (CPU.reg s) regB));
        reflexivity.
Qed.

(** A tick whose opcode is not CMP leaves FL as it was. *)
Lemma tick_FL_other (SP : Z) (s : CPU.t) :
  key_eqb (RAM.read (CPU.ram s) (CPU.PC s)) (Int Op.CMP) = false ->
  CPU.FL (CPU.tick SP s) = CPU.FL s.
Proof.
  intros Hk. unfold CPU.tick. cbn [CPU.IR CPU.set_IR CPU.ram CPU.PC].
  destruct (lookup (CPU.branchTable SP) (RAM.read (CPU.ram s) (CPU.PC s)))
    as [h|] eqn:L; [|reflexivity].
  destruct (branchTable_cases SP _ h L) as (op & Hin & Hop).
  assert (Hne : op <> Op.CMP) by (intros ->; congruence).
  pose proof (handler_FL SP op h
                (RAM.read (CPU.ram s) (js_add (CPU.PC s) (Int 1)))
                (RAM.read (CPU.ram s) (js_add (CPU.PC s) (Int 2)))
                (CPU.set_IR s (RAM.read (CPU.ram s) (CPU.PC s))) Hin Hne) as HF.
  destruct (h _ _ _) as [s1 n]. cbn [fst] in HF.
  destruct (is_undefined n); cbn [CPU.FL CPU.set_PC]; rewrite HF; reflexivity.
Qed.

(** A tick whose opcode is CMP leaves in FL what the ALU leaves there. *)
Lemma tick_FL_CMP (SP : Z) (s : CPU.t) :
  key_eqb (RAM.read (CPU.ram s) (CPU.PC s)) (Int Op.CMP) = true ->
  CPU.FL (CPU.tick SP s) =
    CPU.FL (CPU.alu ALU.CMP
              (RAM.read (CPU.ram s) (js_add (CPU.PC s) (Int 1)))
              (RAM.read (CPU.ram s) (js_add (CPU.PC s) (Int 2)))
              (CPU.set_IR s (RAM.read (CPU.ram s) (CPU.PC s)))).
Proof.
  intros Hk. unfold CPU.tick. cbn [CPU.IR CPU.set_IR CPU.ram CPU.PC].
  rewrite (lookup_key _ _ _ Hk).
  change (lookup (CPU.branchTable SP) (Int Op.CMP)) with (Some CPU.CMP).
  cbn [CPU.CMP is_undefined]. reflexivity.
Qed.


(** ** Faults *)

(** C6.  When the fetched opcode has no entry in the branch table, the tick
    reports the opcode and stops the clock; nothing else changes (no
    handler runs: registers, memory, PC and FL are as before), and the
    stopped machine takes no further step. *)
Theorem tick_unknown_opcode (SP : Z) (s : CPU.t) :
  let ir := RAM.read (CPU.ram s) (CPU.PC s) in
  let s' := CPU.tick SP s in
  lookup (CPU.branchTable SP) ir = None ->
  CPU.console s' = CPU.console s ++ [console_error_cat "Unknown opcode " ir] /\
  CPU.clock s' = false /\
  CPU.IR s' = ir /\
  CPU.reg s' = CPU.reg s /\ CPU.ram s' = CPU.ram s /\
  CPU.PC s' = CPU.PC s /\ CPU.FL s' = CPU.FL s /\
  forall n : nat, CPU.run SP n s' = s'.
Proof.
  intros ir s' H.
  assert (T : s' = CPU.stopClock
                     (CPU.print (CPU.set_IR s ir)
                                (console_error_cat "Unknown opcode " ir))).
  { subst s'. unfold CPU.tick. cbn [CPU.IR CPU.set_IR CPU.ram CPU.PC].
    fold ir. now rewrite H. }
  rewrite T. cbn. repeat split. intros n. now apply run_stopped.
Qed.

Lemma strict_eq_zero (b : jsval) :
  strict_eq b (Int 0) = true ->
  exists (t : bool) (q : Q), ToNumber b = fin t q /\ is_zero q = true.
Proof.
  destruct b as [| |sb| |zb|qb]; cbn [strict_eq ToNumber num_eqb];
    try discriminate; rewrite Qeq_bool_iff; unfold Qeq; cbn; intros H;
    eexists; eexists; (split; [reflexivity|]); unfold is_zero; cbn;
    try reflexivity; apply Z.eqb_eq; lia.
Qed.

(** C5.  A tick that executes DIV or MOD with a divisor register that holds
    zero reports the divisor and clears the clock, as HLT does; the tick
    returns, and the stopped machine takes no further step. *)
Theorem divide_by_zero_halts (SP : Z) (s : CPU.t) :
  let ir := RAM.read (CPU.ram s) (CPU.PC s) in
  let operandB := RAM.read (CPU.ram s) (js_add (CPU.PC s) (Int 2)) in
  let divisor := get (CPU.reg s) operandB in
  let s' := CPU.tick SP s in
  key_eqb ir (Int Op.DIV) = true \/ key_eqb ir (Int Op.MOD) = true ->
  strict_eq divisor (Int 0) = true ->
  CPU.console s' =
    CPU.console s ++
      [console_error (if key_eqb ir (Int Op.DIV)
                      then "Divider cannot be zero"
                      else "Divder cannot be zeor") divisor] /\
  CPU.clock s' = CPU.clock (fst (CPU.HLT Undefined Undefined s)) /\
  CPU.clock s' = false /\
  forall n : nat, CPU.run SP n s' = s'.
Proof.
  intros ir operandB divisor s' Hop Hz.
  assert (C : CPU.console s' =
    CPU.console s ++
      [console_error (if key_eqb ir (Int Op.DIV)
                      then "Divider cannot be zero"
                      else "Divder cannot be zeor") divisor] /\
    CPU.clock s' = false).
  { subst s'. unfold CPU.tick. cbn [CPU.IR CPU.set_IR CPU.ram CPU.PC].
    fold ir operandB.
    destruct Hop as [Hk|Hk].
    - rewrite (lookup_key _ _ _ Hk), Hk.
      change (lookup (CPU.branchTable SP) (Int Op.DIV)) with (Some CPU.DIV).
      cbn [CPU.DIV CPU.alu CPU.reg CPU.set_IR is_undefined].
      fold divisor. rewrite Hz. cbn. auto.
    - assert (Hd : key_eqb ir (Int Op.DIV) = false).
      { destruct (key_eqb ir (Int Op.DIV)) eqn:E; [|reflexivity].
        rewrite key_eqb_sym in E.
        now pose proof (key_eqb_trans _ _ _ E Hk). }
      rewrite (lookup_key _ _ _ Hk), Hd.
      change (lookup (CPU.branchTable SP) (Int Op.MOD)) with (Some CPU.MOD).
      cbn [CPU.MOD CPU.alu CPU.reg CPU.set_IR is_undefined].
      fold divisor. rewrite Hz. cbn. auto. }
  destruct C as [C1 C2]. repeat split; auto.
  intros n. now apply run_stopped.
Qed.

(** C10.  DIV and MOD with a zero divisor do not return after the report:
    the destination register is still assigned the quotient (the
    remainder).  A destination that held an integer holds an infinity or
    NaN afterwards, and the state after the operation is never the state
    before it. *)
Theorem divide_by_zero_assigns (s : CPU.t) (regA regB : jsval) :
  strict_eq (get (CPU.reg s) regB) (Int 0) = true ->
  get (CPU.reg (CPU.alu ALU.DIV regA regB s)) regA =
    js_div (get (CPU.reg s) regA) (get (CPU.reg s) regB) /\
  get (CPU.reg (CPU.alu ALU.MOD regA regB s)) regA =
    js_mod (get (CPU.reg s) regA) (get (CPU.reg s) regB) /\
  (forall z : Z, get (CPU.reg s) regA = Int z ->
     (get (CPU.reg (CPU.alu ALU.DIV regA regB s)) regA = NaN \/
      exists neg, get (CPU.reg (CPU.alu ALU.DIV regA regB s)) regA = Infinity neg) /\
     get (CPU.reg (CPU.alu ALU.MOD regA regB s)) regA = NaN) /\
  CPU.alu ALU.DIV regA regB s <> s /\
  CPU.alu ALU.MOD regA regB s <> s.
Proof.
  intros Hz.
  assert (D : get (CPU.reg (CPU.alu ALU.DIV regA regB s)) regA =
              js_div (get (CPU.reg s) regA) (get (CPU.reg s) regB)).
  { cbn [CPU.alu]. rewrite Hz. cbn [CPU.reg CPU.set_reg fst CPU.HLT CPU.stopClock
                                     CPU.set_clock CPU.print].
    now rewrite get_put, key_eqb_refl. }
  assert (M : get (CPU.reg (CPU.alu ALU.MOD regA regB s)) regA =
              js_mod (get (CPU.reg s) regA) (get (CPU.reg s) regB)).
  { cbn [CPU.alu]. rewrite Hz. cbn [CPU.reg CPU.set_reg fst CPU.HLT CPU.stopClock
                                     CPU.set_clock CPU.print].
    now rewrite get_put, key_eqb_refl. }
  assert (N : forall op, op = ALU.DIV \/ op = ALU.MOD ->
                         CPU.alu op regA regB s <> s).
  { intros op Hop E. apply (f_equal CPU.console) in E.
    apply (f_equal (@List.length event)) in E.
    destruct Hop as [-> | ->]; cbn [CPU.alu] in E; rewrite Hz in E;
      cbn in E; rewrite length_app in E; cbn in E; lia. }
  destruct (strict_eq_zero _ Hz) as (t & q & Hb & Hq).
  split; [exact D|]. split; [exact M|]. split; [|split; apply N; auto].
  intros z Ha. split.
  - rewrite D, Ha. unfold js_div. rewrite Hb. cbn [ToNumber num_div].
    rewrite Hq. destruct (is_zero (inject_Z z)); cbn; eauto.
  - rewrite M, Ha. unfold js_mod. rewrite Hb. cbn [ToNumber num_mod].
    now rewrite Hq.
Qed.

(** ** The stack *)

Lemma INC_byte (v : Z) :
  0 <= v <= 255 -> js_and (js_add (Int (v - 1)) (Int 1)) (Int 255) = Int v.
Proof.
  intros H. rewrite js_add_Int. unfold js_and.
  rewrite !ToInt32_Int, !wrap32_small by lia.
  replace (v - 1 + 1) with v by lia.
  change 255 with (Z.ones 8). rewrite Z.land_ones by lia.
  now rewrite Z.mod_small by lia.
Qed.


(** ** Running programs *)

Lemma run_add (SP : Z) (n k : nat) (s : CPU.t) :
  CPU.run SP (n + k) s = CPU.run SP k (CPU.run SP n s).
Proof.
  revert s. induction n as [|n IH]; intros s; cbn [CPU.run Nat.add].
  - reflexivity.
  - destruct (CPU.clock s) eqn:E; [apply IH|].
    symmetry. now apply run_stopped.
Qed.

(** A run that has stopped within [n] steps is the same for every bound
    from [n] on. *)
Lemma run_halted (SP : Z) (n k : nat) (s : CPU.t) :
  CPU.clock (CPU.run SP n s) = false -> (n <= k)%nat ->
  CPU.run SP k s = CPU.run SP n s.
Proof.
  intros H L. replace k with (n + (k - n))%nat by lia.
  rewrite run_add. now apply run_stopped.
Qed.

(** C9.  The program LDI R0,8; LDI R1,9; MUL R0,R1; PRN R0; HLT, run from
    PC = 0 on a fresh CPU, prints 72 and nothing else, and stops (at the
    fifth tick, whatever the number of ticks allowed from five on). *)
Theorem mult_program_prints_72 (SP : Z) (m : RAM.t) (n : nat) :
  (5 <= n)%nat ->
  CPU.PC (boot SP m mult_program) = Int 0 /\
  CPU.console (CPU.run SP n (boot SP m mult_program)) = [console_log (Int 72)] /\
  CPU.clock (CPU.run SP n (boot SP m mult_program)) = false /\
  CPU.clock (CPU.run SP 4 (boot SP m mult_program)) = true.
Proof.
  intros L.
  rewrite (run_halted SP 5 n) by (reflexivity || exact L).
  repeat split.
Qed.

(** ** The values of FL *)

Lemma js_or_flags_set (v : jsval) (m : Z) :
  flags_set v -> 1 <= m < 8 -> flags_set (js_or v (Int m)).
Proof.
  intros [->|(f & -> & Hf)] Hm; right.
  - exists m. split; [|exact Hm].
    unfold js_or. rewrite ToInt32_Int, wrap32_small by lia. reflexivity.
  - destruct (js_or_flags f m ltac:(lia) ltac:(lia)) as [-> R].
    exists (Z.lor f m). split; [reflexivity|lia].
Qed.

Lemma tick_flags_set (SP : Z) (s : CPU.t) :
  flags_set (CPU.FL s) -> flags_set (CPU.FL (CPU.tick SP s)).
Proof.
  intros H.
  destruct (key_eqb (RAM.read (CPU.ram s) (CPU.PC s)) (Int Op.CMP)) eqn:E.
  - rewrite (tick_FL_CMP SP s E), alu_CMP_FL. cbn [CPU.FL CPU.set_IR].
    split_ifs; try apply js_or_flags_set; try lia; exact H.
  - now rewrite (tick_FL_other SP s E).
Qed.

Lemma run_flags_set (SP : Z) (n : nat) (s : CPU.t) :
  flags_set (CPU.FL s) -> flags_set (CPU.FL (CPU.run SP n s)).
Proof.
  revert s. induction n as [|n IH]; intros s H; cbn [CPU.run]; [exact H|].
  destruct (CPU.clock s); [|exact H]. apply IH. now apply tick_flags_set.
Qed.

Lemma load_FL (program : list Z) (address : Z) (s : CPU.t) :
  CPU.FL (load program address s) = CPU.FL s.
Proof.
  revert address s. induction program as [|b rest IH]; intros address s;
    cbn [load]; [reflexivity|]. now rewrite IH.
Qed.

(** X19.  JNE never jumps: in no state that a program reaches from a fresh
    CPU is FL [=== 0]. *)
Lemma JNE_never_jumps (SP : Z) (m : RAM.t) (program : list Z) (n : nat)
      (regA b : jsval) :
  snd (CPU.JNE regA b (CPU.run SP n (boot SP m program))) = Undefined.
Proof.
  assert (F : flags_set (CPU.FL (CPU.run SP n (boot SP m program)))).
  { apply run_flags_set. unfold boot. cbn [CPU.FL CPU.startClock CPU.set_clock].
    rewrite load_FL. now left. }
  unfold CPU.JNE. destruct F as [->|(f & -> & Hf)]; [reflexivity|].
  replace (strict_eq (Int f) (Int 0)) with false; [reflexivity|].
  symmetry. cbn [strict_eq ToNumber num_eqb].
  destruct (Qeq_bool (inject_Z f) (inject_Z 0)) eqn:E; [|reflexivity].
  apply Qeq_bool_iff in E. unfold Qeq in E; cbn in E. lia.
Qed.

(** ** Where the code departs from the specification *)

(** C3.  JEQ and JNE compare the whole of FL with 1 and with 0.  After
    CMP R0,R1 with R0 = 5 and R1 = 3, FL is 2: the Equal flag is clear, yet
    JNE R2 does not jump to the address 40 held by R2 (PC advances from 12
    to 14).  After a CMP of equal values and a CMP of a greater one, FL is
    3: the Equal flag is set, yet JEQ R2 does not jump either (PC advances
    from 18 to 20). *)
Theorem JNE_JEQ_compare_whole_FL (SP : Z) (m : RAM.t) :
  let s := CPU.run SP 4 (boot SP m jne_program) in
  let s' := CPU.run SP 6 (boot SP m jeq_program) in
  (CPU.FL s = Int 2 /\ CPU.PC s = Int 12 /\
   Z.testbit 2 0 = false /\ get (CPU.reg s) (Int 2) = Int 40 /\
   snd (CPU.JNE (Int 2) Undefined s) = Undefined /\
   CPU.PC (CPU.tick SP s) = Int 14) /\
  (CPU.FL s' = Int 3 /\ CPU.PC s' = Int 18 /\
   Z.testbit 3 0 = true /\ get (CPU.reg s') (Int 2) = Int 40 /\
   snd (CPU.JEQ (Int 2) Undefined s') = Undefined /\
   CPU.PC (CPU.tick SP s') = Int 20).
Proof. repeat split. Qed.

(** C4.  ADD does not truncate: with R0 = 200 and R1 = 100, ADD R0,R1
    leaves 300 in R0; DEC of 0 leaves -1.  INC does wrap: INC of 255 leaves
    0. *)
Theorem ADD_not_truncated (SP : Z) (m : RAM.t) :
  get (CPU.reg (CPU.run SP 2 (boot SP m add_program))) (Int 0) = Int 200 /\
  get (CPU.reg (CPU.run SP 2 (boot SP m add_program))) (Int 1) = Int 100 /\
  get (CPU.reg (CPU.run SP 3 (boot SP m add_program))) (Int 0) = Int 300 /\
  get (CPU.reg (CPU.run SP 2 (boot SP m dec_program))) (Int 0) = Int (-1) /\
  get (CPU.reg (CPU.run SP 2 (boot SP m inc_program))) (Int 0) = Int 0.
Proof. repeat split. Qed.

(** C8.  The constructor leaves the eight registers at 0, except the one
    at index SP, which holds 0xF4; PC and IR are 0; FL is not assigned: it
    is [undefined], which is not [=== 0]. *)
Theorem constructor_state (SP : Z) (m : RAM.t) (i : Z) :
  0 <= i < 8 ->
  get (CPU.reg (CPU.constructor SP m)) (Int i) =
    (if i =? SP then Int 244 else Int 0) /\
  CPU.PC (CPU.constructor SP m) = Int 0 /\
  CPU.IR (CPU.constructor SP m) = Int 0 /\
  CPU.FL (CPU.constructor SP m) = Undefined /\
  strict_eq (CPU.FL (CPU.constructor SP m)) (Int 0) = false.
Proof.
  intros H. repeat split.
  cbn [CPU.constructor CPU.reg]. rewrite get_put.
  assert (K : key_eqb (Int i) (Int SP) = (i =? SP)).
  { cbn [key_eqb ToNumber]. apply Bool.eq_true_iff_eq.
    rewrite Qeq_bool_iff, Z.eqb_eq. unfold Qeq; cbn. lia. }
  rewrite K. destruct (i =? SP); [reflexivity|].
  assert (F : i = 0 \/ i = 1 \/ i = 2 \/ i = 3 \/ i = 4 \/ i = 5 \/ i = 6 \/ i = 7)
    by lia.
  repeat (destruct F as [->|F]); subst; reflexivity.
Qed.


(** ** Instances *)



Lemma divide_by_zero_halts_witness :
  key_eqb (RAM.read (CPU.ram (CPU.run 7 2 (boot 7 [] div_program))) (Int 6))
          (Int Op.DIV) = true /\
  strict_eq (get (CPU.reg (CPU.run 7 2 (boot 7 [] div_program))) (Int 1)) (Int 0)
    = true /\
  CPU.console (CPU.tick 7 (CPU.run 7 2 (boot 7 [] div_program)))
    = [console_error "Divider cannot be zero" (Int 0)] /\
  CPU.clock (CPU.tick 7 (CPU.run 7 2 (boot 7 [] div_program))) = false /\
  CPU.console (CPU.tick 7 (CPU.run 7 2 (boot 7 [] mod_program)))
    = [console_error "Divder cannot be zeor" (Int 0)].
Proof.
  split; [reflexivity|]. split; [reflexivity|].
  destruct (divide_by_zero_halts 7 (CPU.run 7 2 (boot 7 [] div_program))
              (or_introl eq_refl) eq_refl) as (C & _ & K & _).
  destruct (divide_by_zero_halts 7 (CPU.run 7 2 (boot 7 [] mod_program))
              (or_intror eq_refl) eq_refl) as (C' & _).
  repeat split; assumption.
Defined.

Lemma tick_unknown_opcode_witness :
  lookup (CPU.branchTable 7)
    (RAM.read (CPU.ram (boot 7 [] unknown_program)) (Int 0)) = None /\
  CPU.console (CPU.tick 7 (boot 7 [] unknown_program))
    = [console_error_cat "Unknown opcode " (Int 255)] /\
  CPU.clock (CPU.tick 7 (boot 7 [] unknown_program)) = false.
Proof.
  split; [reflexivity|].
  destruct (tick_unknown_opcode 7 (boot 7 [] unknown_program) eq_refl)
    as (C & K & _).
  split; assumption.
Defined.


Lemma mult_program_prints_72_witness :
  (5 <= 5)%nat /\
  CPU.console (CPU.run 7 5 (boot 7 [] mult_program)) = [console_log (Int 72)].
Proof.
  split; [lia|].
  destruct (mult_program_prints_72 7 [] 5 ltac:(lia)) as (_ & H & _).
  exact H.
Defined.

Lemma divide_by_zero_assigns_witness :
  strict_eq (get (CPU.reg (CPU.run 7 2 (boot 7 [] div_program))) (Int 1)) (Int 0)
    = true /\
  get (CPU.reg (CPU.alu ALU.DIV (Int 0) (Int 1)
                  (CPU.run 7 2 (boot 7 [] div_program)))) (Int 0)
    = Infinity false /\
  get (CPU.reg (CPU.alu ALU.MOD (Int 0) (Int 1)
                  (CPU.run 7 2 (boot 7 [] div_program)))) (Int 0)
    = NaN.
Proof.
  split; [reflexivity|].
  destruct (divide_by_zero_assigns (CPU.run 7 2 (boot 7 [] div_program))
              (Int 0) (Int 1) eq_refl) as (D & M & _).
  split; [exact D | exact M].
Defined.

Lemma constructor_state_witness :
  0 <= 7 < 8 /\
  get (CPU.reg (CPU.constructor 7 [])) (Int 7) = Int 244 /\
  CPU.FL (CPU.constructor 7 []) = Undefined.
Proof.
  split; [lia|].
  destruct (constructor_state 7 [] 7 ltac:(lia)) as (R & _ & _ & F & _).
  split; [exact R | exact F].
Defined.

(** * Further properties of the ALU *)

Lemma from_fin_proper (s : bool) (p q : Q) : p == q -> from_fin s p = from_fin s q.
Proof. intros H. unfold from_fin. now rewrite (Qred_complete p q H). Qed.


Lemma Qtrunc_div_Z (a b : Z) :
  b <> 0 -> Qtrunc (inject_Z a / inject_Z b) = Z.quot a b.
Proof.
  intros Hb. unfold Qtrunc, Qdiv, Qmult, Qinv, inject_Z.
  destruct b as [|p|p]; [congruence| |]; cbn [Qnum Qden].
  - now rewrite Z.mul_1_r, Pos.mul_1_l.
  - rewrite Pos.mul_1_l.
    replace (a * Z.neg 1) with (- a) by lia.
    change (Z.neg p) with (- Z.pos p).
    rewrite Z.quot_opp_l, Z.quot_opp_r by lia. reflexivity.
Qed.

Lemma log2_byte (z : Z) : 0 <= z < 256 -> Z.log2 z < 8.
Proof.
  intros H. destruct (Z.eq_dec z 0) as [->|N]; [reflexivity|].
  apply Z.log2_lt_pow2; lia.
Qed.

Lemma byte_of_log2 (z : Z) : 0 <= z -> Z.log2 z < 8 -> 0 <= z < 256.
Proof.
  intros H L. split; [exact H|].
  destruct (Z.eq_dec z 0) as [->|N]; [lia|].
  apply (Z.log2_lt_pow2 z 8); lia.
Qed.

Lemma bitwise_bytes (a b : Z) :
  0 <= a < 256 -> 0 <= b < 256 ->
  0 <= Z.land a b < 256 /\ 0 <= Z.lor a b < 256 /\ 0 <= Z.lxor a b < 256.
Proof.
  intros Ha Hb.
  pose proof (log2_byte a Ha) as La. pose proof (log2_byte b Hb) as Lb.
  split; [|split]; apply byte_of_log2.
  - apply Z.land_nonneg; lia.
  - pose proof (Z.log2_land a b ltac:(lia) ltac:(lia)). lia.
  - apply Z.lor_nonneg; lia.
  - rewrite Z.log2_lor by lia. lia.
  - apply Z.lxor_nonneg; lia.
  - pose proof (Z.log2_lxor a b ltac:(lia) ltac:(lia)). lia.
Qed.

(** X1.  Whatever the register held (a number of any size, a fraction, NaN
    or [undefined]), INC leaves an integer of 0..255 in it. *)
Theorem INC_leaves_a_byte (s : CPU.t) (regA regB : jsval) :
  exists z : Z,
    get (CPU.reg (CPU.alu ALU.INC regA regB s)) regA = Int z /\ 0 <= z <= 255.
Proof.
  cbn [CPU.alu CPU.reg CPU.set_reg]. rewrite get_put, key_eqb_refl.
  unfold js_and. rewrite (ToInt32_Int 255), (wrap32_small 255) by lia.
  set (x := ToInt32 (js_add (get (CPU.reg s) regA) (Int 1))).
  exists (x mod 2 ^ 8). split.
  - f_equal. change 255 with (Z.ones 8). now rewrite Z.land_ones by lia.
  - pose proof (Z.mod_pos_bound x (2 ^ 8) ltac:(lia)). lia.
Qed.

(** X2.  On registers that hold bytes, AND, OR and XOR store the bitwise
    result, which is a byte again. *)
Theorem bitwise_ops_keep_bytes (s : CPU.t) (regA regB : jsval) (a b : Z) :
  get (CPU.reg s) regA = Int a -> get (CPU.reg s) regB = Int b ->
  0 <= a <= 255 -> 0 <= b <= 255 ->
  (get (CPU.reg (CPU.alu ALU.AND regA regB s)) regA = Int (Z.land a b) /\
   0 <= Z.land a b <= 255) /\
  (get (CPU.reg (CPU.alu ALU.OR regA regB s)) regA = Int (Z.lor a b) /\
   0 <= Z.lor a b <= 255) /\
  (get (CPU.reg (CPU.alu ALU.XOR regA regB s)) regA = Int (Z.lxor a b) /\
   0 <= Z.lxor a b <= 255).
Proof.
  intros Ha Hb Ra Rb.
  destruct (bitwise_bytes a b ltac:(lia) ltac:(lia)) as (B1 & B2 & B3).
  cbn [CPU.alu CPU.reg CPU.set_reg]. rewrite !get_put, !key_eqb_refl, Ha, Hb.
  unfold js_and, js_or, js_xor.
  rewrite !ToInt32_Int, !wrap32_small by lia.
  repeat split; lia.
Qed.

(** X3.  NOT is not an 8-bit complement: on a register that holds the byte
    [a] it stores [-a - 1], which is negative. *)
Theorem NOT_of_a_byte_is_negative (s : CPU.t) (regA regB : jsval) (a : Z) :
  get (CPU.reg s) regA = Int a -> 0 <= a <= 255 ->
  get (CPU.reg (CPU.alu ALU.NOT regA regB s)) regA = Int (- a - 1) /\
  - a - 1 < 0.
Proof.
  intros Ha Ra. cbn [CPU.alu CPU.reg CPU.set_reg].
  rewrite get_put, key_eqb_refl, Ha. unfold js_not.
  rewrite ToInt32_Int, wrap32_small, Z.lnot_eq_pred_opp by lia.
  split; [reflexivity|lia].
Qed.



(** X6.  On integer registers with a divisor that is not zero, MOD stores
    the remainder of the division that truncates toward zero; a zero
    remainder of a negative dividend is the negative zero. *)
Theorem MOD_of_integers (s : CPU.t) (regA regB : jsval) (a b : Z) :
  get (CPU.reg s) regA = Int a -> get (CPU.reg s) regB = Int b -> b <> 0 ->
  let s' := CPU.alu ALU.MOD regA regB s in
  get (CPU.reg s') regA =
    (if Z.rem a b =? 0 then (if a <? 0 then NegZero else Int 0)
     else Int (Z.rem a b)) /\
  CPU.clock s' = CPU.clock s /\ CPU.console s' = CPU.console s.
Proof.
  intros Ha Hb Hn.
  assert (Z0 : strict_eq (Int b) (Int 0) = false).
  { cbn [strict_eq ToNumber num_eqb].
    destruct (Qeq_bool (inject_Z b) (inject_Z 0)) eqn:E; [|reflexivity].
    apply Qeq_bool_iff in E. unfold Qeq in E; cbn in E. lia. }
  assert (Zb : is_zero (inject_Z b) = false).
  { unfold is_zero; cbn. now apply Z.eqb_neq. }
  cbn [CPU.alu]. rewrite Hb, Z0. cbn [CPU.reg CPU.set_reg CPU.clock CPU.console].
  rewrite get_put, key_eqb_refl, Ha, Hb.
  split; [|split; reflexivity].
  unfold js_mod. cbn [ToNumber num_mod]. rewrite Zb. cbn [from_number].
  rewrite (Qtrunc_div_Z a b Hn).
  rewrite (from_fin_proper _ _ (inject_Z (Z.rem a b))).
  - apply from_fin_Z.
  - rewrite (Z.rem_eq a b Hn). unfold Qminus.
    rewrite <- inject_Z_mult, <- inject_Z_opp, <- inject_Z_plus. reflexivity.
Qed.

(** X7.  On a register that holds a byte, INC undoes DEC (also at 0, where
    DEC leaves -1), and DEC undoes INC except at 255, where INC wraps to 0
    and DEC then leaves -1. *)
Theorem INC_and_DEC (s : CPU.t) (regA regB : jsval) (a : Z) :
  get (CPU.reg s) regA = Int a -> 0 <= a <= 255 ->
  get (CPU.reg (CPU.alu ALU.INC regA regB (CPU.alu ALU.DEC regA regB s))) regA
    = Int a /\
  get (CPU.reg (CPU.alu ALU.DEC regA regB (CPU.alu ALU.INC regA regB s))) regA
    = (if a =? 255 then Int (-1) else Int a).
Proof.
  intros Ha Ra. cbn [CPU.alu CPU.reg CPU.set_reg].
  rewrite !get_put, !key_eqb_refl, Ha, js_sub_Int.
  split; [now apply INC_byte|].
  rewrite js_add_Int. unfold js_and. rewrite !ToInt32_Int, !wrap32_small by lia.
  change 255 with (Z.ones 8). rewrite Z.land_ones by lia.
  change (Z.ones 8) with 255.
  destruct (Z.eqb_spec a 255) as [->|N]; [reflexivity|].
  rewrite Z.mod_small by lia. rewrite js_sub_Int. f_equal. lia.
Qed.

(** * Further properties of the stack *)

Lemma key_eqb_Int (a b : Z) : key_eqb (Int a) (Int b) = (a =? b).
Proof.
  cbn [key_eqb ToNumber]. apply Bool.eq_true_iff_eq.
  rewrite Qeq_bool_iff, Z.eqb_eq. unfold Qeq; cbn. lia.
Qed.


Lemma pop_effect (SP : Z) (s : CPU.t) (v : Z) :
  get (CPU.reg s) (Int SP) = Int v -> -1 <= v <= 255 ->
  CPU._pop SP s =
    (CPU.set_reg s (put (CPU.reg s) (Int SP) (Int ((v + 1) mod 256))),
     get (CPU.ram s) (Int v)).
Proof.
  intros H R. unfold CPU._pop, RAM.read. cbn [CPU.alu]. rewrite H, js_add_Int.
  unfold js_and. rewrite !ToInt32_Int, !wrap32_small by lia.
  change 255 with (Z.ones 8). rewrite Z.land_ones by lia. reflexivity.
Qed.


(** X9.  POP reads the cell at SP into the register and increments SP
    modulo 256 (from 255 it wraps to 0); memory is not changed. *)
Theorem POP_effect (SP : Z) (s : CPU.t) (regA b : jsval) (v : Z) :
  get (CPU.reg s) (Int SP) = Int v -> 0 <= v <= 255 ->
  key_eqb (Int SP) regA = false ->
  let s' := fst (CPU.POP SP regA b s) in
  get (CPU.reg s') regA = RAM.read (CPU.ram s) (Int v) /\
  get (CPU.reg s') (Int SP) = Int ((v + 1) mod 256) /\
  CPU.ram s' = CPU.ram s /\
  (forall k : jsval, key_eqb k (Int SP) = false -> key_eqb k regA = false ->
     get (CPU.reg s') k = get (CPU.reg s) k).
Proof.
  intros H R N s'. subst s'. unfold CPU.POP.
  rewrite (pop_effect SP s v H ltac:(lia)). unfold RAM.read.
  cbn [fst CPU.reg CPU.ram CPU.set_reg].
  split; [|split; [|split]].
  - now rewrite get_put, key_eqb_refl.
  - now rewrite !get_put, N, key_eqb_refl.
  - reflexivity.
  - intros k K1 K2. now rewrite !get_put, K2, K1.
Qed.




(** * Further properties of the cycle *)

Lemma key_eqb_congr (ir k k' : jsval) :
  key_eqb ir k = true -> key_eqb ir k' = key_eqb k k'.
Proof.
  intros H. destruct (key_eqb k k') eqn:E.
  - exact (key_eqb_trans _ _ _ H E).
  - destruct (key_eqb ir k') eqn:E'; [|reflexivity].
    rewrite key_eqb_sym in H.
    now rewrite (key_eqb_trans _ _ _ H E') in E.
Qed.

(** A tick with a handler: the fields other than PC are those that the
    handler leaves. *)
Lemma tick_found (SP : Z) (s : CPU.t) (h : CPU.handler) :
  let ir := RAM.read (CPU.ram s) (CPU.PC s) in
  let operandA := RAM.read (CPU.ram s) (js_add (CPU.PC s) (Int 1)) in
  let operandB := RAM.read (CPU.ram s) (js_add (CPU.PC s) (Int 2)) in
  let s1 := fst (h operandA operandB (CPU.set_IR s ir)) in
  lookup (CPU.branchTable SP) ir = Some h ->
  CPU.reg (CPU.tick SP s) = CPU.reg s1 /\
  CPU.ram (CPU.tick SP s) = CPU.ram s1 /\
  CPU.clock (CPU.tick SP s) = CPU.clock s1 /\
  CPU.console (CPU.tick SP s) = CPU.console s1.
Proof.
  intros ir operandA operandB s1 H. subst s1.
  unfold CPU.tick. cbn [CPU.IR CPU.set_IR CPU.ram CPU.PC].
  fold ir. rewrite H. fold operandA operandB.
  destruct (h operandA operandB (CPU.set_IR s ir)) as [s1 n].
  destruct (is_undefined n); repeat split.
Qed.

Ltac handler_cases Hin :=
  cbn in Hin;
  repeat (destruct Hin as [Hin|Hin]; [inversion Hin; subst; clear Hin|]);
  [..|destruct Hin].

(** X13.  A tick writes at most two registers: the one that operand A
    names and the one at index SP. *)
Theorem tick_writes_two_registers (SP : Z) (s : CPU.t) (k : jsval) :
  let operandA := RAM.read (CPU.ram s) (js_add (CPU.PC s) (Int 1)) in
  key_eqb k operandA = false -> key_eqb k (Int SP) = false ->
  get (CPU.reg (CPU.tick SP s)) k = get (CPU.reg s) k.
Proof.
  intros operandA K1 K2.
  destruct (lookup (CPU.branchTable SP) (RAM.read (CPU.ram s) (CPU.PC s)))
    as [h|] eqn:L.
  - destruct (tick_found SP s h L) as (-> & _). fold operandA.
    destruct (branchTable_cases SP _ h L) as (op & Hin & _).
    set (operandB := RAM.read (CPU.ram s) (js_add (CPU.PC s) (Int 2))).
    set (s0 := CPU.set_IR s (RAM.read (CPU.ram s) (CPU.PC s))).
    change (CPU.reg s) with (CPU.reg s0). clearbody s0 operandB operandA.
    handler_cases Hin;
      try unfold CPU.JEQ, CPU.JNE;
      cbn [fst CPU.XOR CPU.SUB CPU.OR CPU.NOT CPU.MOD CPU.CMP CPU.DIV
             CPU.DEC CPU.INC CPU.AND CPU.MUL CPU.ADD CPU.JMP CPU.NOP
             CPU.RET CPU.CALL CPU.PUSH CPU.POP CPU.PRN CPU.LDI CPU.HLT
             CPU._pop CPU._push CPU.alu CPU.reg CPU.set_reg CPU.set_ram
             CPU.set_FL CPU.stopClock CPU.set_clock CPU.print];
      split_ifs;
      cbn [fst CPU.reg CPU.set_reg CPU.set_FL CPU.stopClock CPU.set_clock
             CPU.print CPU.HLT];
      rewrite ?get_put, ?K1, ?K2; rewrite ?get_put, ?K1, ?K2; reflexivity.
  - unfold CPU.tick. cbn [CPU.IR CPU.set_IR CPU.ram CPU.PC]. now rewrite L.
Qed.

(** X14.  Only PUSH writes memory: a tick with any other opcode, known or
    not, leaves the memory as it was. *)
Theorem tick_writes_memory_only_in_PUSH (SP : Z) (s : CPU.t) :
  key_eqb (RAM.read (CPU.ram s) (CPU.PC s)) (Int Op.PUSH) = false ->
  CPU.ram (CPU.tick SP s) = CPU.ram s.
Proof.
  intros K.
  destruct (lookup (CPU.branchTable SP) (RAM.read (CPU.ram s) (CPU.PC s)))
    as [h|] eqn:L.
  - destruct (tick_found SP s h L) as (_ & -> & _).
    destruct (branchTable_cases SP _ h L) as (op & Hin & Hop).
    assert (N : op <> Op.PUSH) by (intros ->; congruence).
    set (operandA := RAM.read (CPU.ram s) (js_add (CPU.PC s) (Int 1))).
    set (operandB := RAM.read (CPU.ram s) (js_add (CPU.PC s) (Int 2))).
    set (s0 := CPU.set_IR s (RAM.read (CPU.ram s) (CPU.PC s))).
    change (CPU.ram s) with (CPU.ram s0). clearbody s0 operandB operandA.
    handler_cases Hin; try (exfalso; apply N; reflexivity);
      try unfold CPU.JEQ, CPU.JNE; cbn; split_ifs; reflexivity.
  - unfold CPU.tick. cbn [CPU.IR CPU.set_IR CPU.ram CPU.PC]. now rewrite L.
Qed.

(** X15.  A tick with a handler prints nothing unless the opcode is PRN, or
    DIV or MOD with a divisor register that holds zero. *)
Theorem tick_prints_nothing (SP : Z) (s : CPU.t) (h : CPU.handler) :
  let ir := RAM.read (CPU.ram s) (CPU.PC s) in
  let operandB := RAM.read (CPU.ram s) (js_add (CPU.PC s) (Int 2)) in
  lookup (CPU.branchTable SP) ir = Some h ->
  key_eqb ir (Int Op.PRN) = false ->
  (key_eqb ir (Int Op.DIV) || key_eqb ir (Int Op.MOD))
    && strict_eq (get (CPU.reg s) operandB) (Int 0) = false ->
  CPU.console (CPU.tick SP s) = CPU.console s.
Proof.
  intros ir operandB L P D.
  destruct (tick_found SP s h L) as (_ & _ & _ & ->). fold ir operandB.
  destruct (branchTable_cases SP _ h L) as (op & Hin & Hop). fold ir in Hop.
  rewrite (key_eqb_congr _ _ (Int Op.PRN) Hop) in P.
  rewrite (key_eqb_congr _ _ (Int Op.DIV) Hop),
          (key_eqb_congr _ _ (Int Op.MOD) Hop) in D.
  set (operandA := RAM.read (CPU.ram s) (js_add (CPU.PC s) (Int 1))).
  change (get (CPU.reg s) operandB)
    with (get (CPU.reg (CPU.set_IR s ir)) operandB) in D.
  change (CPU.console s) with (CPU.console (CPU.set_IR s ir)).
  set (s0 := CPU.set_IR s ir) in *. clearbody s0 operandB operandA.
  handler_cases Hin; try discriminate P;
    try unfold CPU.JEQ, CPU.JNE;
    cbn [fst CPU.XOR CPU.SUB CPU.OR CPU.NOT CPU.MOD CPU.CMP CPU.DIV
           CPU.DEC CPU.INC CPU.AND CPU.MUL CPU.ADD CPU.JMP CPU.NOP
           CPU.RET CPU.CALL CPU.PUSH CPU.POP CPU.LDI CPU.HLT
           CPU._pop CPU._push CPU.alu];
    try (cbn [orb andb key_eqb ToNumber Qeq_bool] in D; cbn in D; rewrite D);
    split_ifs; reflexivity.
Qed.

(** X16.  A tick never sets the clock, and it clears it exactly when the
    opcode is unknown, or HLT, or DIV or MOD with a divisor register that
    holds zero. *)
Theorem tick_clock (SP : Z) (s : CPU.t) :
  CPU.clock (CPU.tick SP s) = CPU.clock s && negb (tick_stops SP s).
Proof.
  unfold tick_stops.
  destruct (lookup (CPU.branchTable SP) (RAM.read (CPU.ram s) (CPU.PC s)))
    as [h|] eqn:L.
  - destruct (tick_found SP s h L) as (_ & _ & -> & _).
    destruct (branchTable_cases SP _ h L) as (op & Hin & Hop).
    rewrite (key_eqb_congr _ _ (Int Op.HLT) Hop),
            (key_eqb_congr _ _ (Int Op.DIV) Hop),
            (key_eqb_congr _ _ (Int Op.MOD) Hop).
    set (operandA := RAM.read (CPU.ram s) (js_add (CPU.PC s) (Int 1))).
    set (operandB := RAM.read (CPU.ram s) (js_add (CPU.PC s) (Int 2))).
    change (get (CPU.reg s) operandB)
      with (get (CPU.reg (CPU.set_IR s (RAM.read (CPU.ram s) (CPU.PC s))))
                operandB).
    change (CPU.clock s)
      with (CPU.clock (CPU.set_IR s (RAM.read (CPU.ram s) (CPU.PC s)))).
    set (s0 := CPU.set_IR s (RAM.read (CPU.ram s) (CPU.PC s))).
    clearbody s0 operandB operandA. clear Hop L.
    destruct (strict_eq (get (CPU.reg s0) operandB) (Int 0)) eqn:Z0;
      handler_cases Hin;
      try unfold CPU.JEQ, CPU.JNE;
      cbn [fst CPU.XOR CPU.SUB CPU.OR CPU.NOT CPU.MOD CPU.CMP CPU.DIV
             CPU.DEC CPU.INC CPU.AND CPU.MUL CPU.ADD CPU.JMP CPU.NOP
             CPU.RET CPU.CALL CPU.PUSH CPU.POP CPU.PRN CPU.LDI CPU.HLT
             CPU._pop CPU._push CPU.alu];
      unfold CPU._push, CPU._pop;
      rewrite ?Z0; split_ifs;
      rewrite ?key_eqb_Int;
      cbn [fst CPU.alu CPU.clock CPU.set_reg CPU.set_ram CPU.set_FL CPU.stopClock
             CPU.set_clock CPU.print CPU.HLT Z.eqb Pos.eqb orb andb negb
             Op.HLT Op.ADD Op.MUL Op.LDI Op.PRN Op.POP Op.PUSH Op.CALL
             Op.RET Op.AND Op.NOP Op.INC Op.DEC Op.DIV Op.CMP Op.JEQ
             Op.JNE Op.JMP Op.MOD Op.NOT Op.OR Op.SUB Op.XOR];
      destruct (CPU.clock s0); reflexivity.
  - unfold CPU.tick. cbn [CPU.IR CPU.set_IR CPU.ram CPU.PC]. rewrite L.
    cbn. now rewrite Bool.andb_false_r.
Qed.

(** X17.  The branch table has a handler for exactly the 23 opcodes of the
    instruction list: a value fetched as opcode finds a handler if and
    only if it names one of them; every other byte is an unknown opcode. *)
Theorem branchTable_domain (SP : Z) (ir : jsval) :
  lookup (CPU.branchTable SP) ir <> None <->
  exists op : Z, In op opcodes /\ key_eqb ir (Int op) = true.
Proof.
  split.
  - destruct (lookup (CPU.branchTable SP) ir) as [h|] eqn:L; [|congruence].
    intros _. destruct (branchTable_cases SP ir h L) as (op & Hin & Hop).
    exists op. split; [|exact Hop]. clear Hop L.
    cbn in Hin.
    repeat (destruct Hin as [Hin|Hin];
            [inversion Hin; subst; cbn; tauto|]).
    destruct Hin.
  - intros (op & Hin & Hop). rewrite (lookup_key _ _ _ Hop).
    cbn in Hin.
    repeat (destruct Hin as [Hin|Hin]; [subst op; discriminate|]).
    destruct Hin.
Qed.

(** X18.  JMP and CALL are the same instruction: the tick sets PC to the
    value of the register that operand A names and changes nothing else
    (CALL pushes no return address).  When that register holds no value
    (an index that names no register), PC advances by 2 instead. *)
Theorem tick_JMP_CALL (SP : Z) (s : CPU.t) :
  let ir := RAM.read (CPU.ram s) (CPU.PC s) in
  let operandA := RAM.read (CPU.ram s) (js_add (CPU.PC s) (Int 1)) in
  let target := get (CPU.reg s) operandA in
  key_eqb ir (Int Op.JMP) = true \/ key_eqb ir (Int Op.CALL) = true ->
  CPU.tick SP s =
    CPU.set_PC (CPU.set_IR s ir)
      (if is_undefined target then js_add (CPU.PC s) (Int 2) else target).
Proof.
  intros ir operandA target H.
  assert (C : operand_count ir = 1).
  { unfold operand_count. destruct H as [H|H]; rewrite (ToInt32_key _ _ H);
      reflexivity. }
  unfold CPU.tick. cbn [CPU.IR CPU.set_IR CPU.ram CPU.PC].
  fold ir operandA.
  assert (L : lookup (CPU.branchTable SP) ir = Some CPU.JMP).
  { destruct H as [H|H]; rewrite (lookup_key _ _ _ H); reflexivity. }
  rewrite L. cbn [CPU.JMP CPU.reg CPU.set_IR CPU.PC CPU.IR]. fold target.
  rewrite operands_count, C.
  destruct (is_undefined target); reflexivity.
Qed.

Lemma lor_flags_ge (f m : Z) : 0 <= f < 8 -> 0 <= m < 8 -> f <= Z.lor f m.
Proof.
  intros Hf Hm.
  assert (F : f = 0 \/ f = 1 \/ f = 2 \/ f = 3 \/ f = 4 \/ f = 5 \/ f = 6 \/ f = 7) by lia.
  assert (M : m = 0 \/ m = 1 \/ m = 2 \/ m = 3 \/ m = 4 \/ m = 5 \/ m = 6 \/ m = 7) by lia.
  repeat (destruct F as [->|F]); subst;
    repeat (destruct M as [->|M]); subst; cbn; lia.
Qed.

Lemma tick_flags_grow (SP : Z) (s : CPU.t) (f : Z) :
  CPU.FL s = Int f -> 0 <= f < 8 ->
  exists f' : Z, CPU.FL (CPU.tick SP s) = Int f' /\ f <= f' < 8.
Proof.
  intros H R.
  assert (O : forall m, 0 <= m < 8 ->
            exists f', js_or (Int f) (Int m) = Int f' /\ f <= f' < 8).
  { intros m Hm. destruct (js_or_flags f m R Hm) as [-> B].
    pose proof (lor_flags_ge f m R Hm). eexists; split; [reflexivity|lia]. }
  destruct (key_eqb (RAM.read (CPU.ram s) (CPU.PC s)) (Int Op.CMP)) eqn:E.
  - rewrite (tick_FL_CMP SP s E), alu_CMP_FL. cbn [CPU.FL CPU.set_IR].
    rewrite H. split_ifs; try (apply O; lia). exists f. split; [reflexivity|lia].
  - rewrite (tick_FL_other SP s E), H. exists f. split; [reflexivity|lia].
Qed.

(** X20.  Once a comparison has set the Greater or the Less flag (FL is 2
    or more), JEQ does not jump any more, however long the run goes on:
    no later CMP brings FL back to 1. *)
Theorem JEQ_never_jumps_after_a_difference
        (SP : Z) (n : nat) (s : CPU.t) (f : Z) (regA b : jsval) :
  CPU.FL s = Int f -> 2 <= f < 8 ->
  snd (CPU.JEQ regA b (CPU.run SP n s)) = Undefined.
Proof.
  intros H R.
  assert (I : exists f', CPU.FL (CPU.run SP n s) = Int f' /\ 2 <= f' < 8).
  { revert s f H R. induction n as [|n IH]; intros s f H R; cbn [CPU.run].
    - exists f. auto.
    - destruct (CPU.clock s); [|exists f; auto].
      destruct (tick_flags_grow SP s f H ltac:(lia)) as (f' & H' & R').
      apply (IH _ f' H'). lia. }
  destruct I as (f' & H' & R'). unfold CPU.JEQ. rewrite H'.
  replace (strict_eq (Int f') (Int 1)) with false; [reflexivity|].
  symmetry. cbn [strict_eq ToNumber num_eqb].
  destruct (Qeq_bool (inject_Z f') (inject_Z 1)) eqn:E; [|reflexivity].
  apply Qeq_bool_iff in E. unfold Qeq in E; cbn in E. lia.
Qed.

(** X21.  Repeating a comparison changes nothing: a second CMP of the same
    registers leaves the state that the first one left (FL being
    [undefined] or a combination of the three flags). *)
Theorem CMP_twice (s : CPU.t) (regA regB : jsval) :
  flags_set (CPU.FL s) ->
  CPU.alu ALU.CMP regA regB (CPU.alu ALU.CMP regA regB s) =
  CPU.alu ALU.CMP regA regB s.
Proof.
  intros F.
  assert (S : forall t, CPU.alu ALU.CMP regA regB t =
                        CPU.set_FL t (CPU.FL (CPU.alu ALU.CMP regA regB t))).
  { intros t. destruct t; cbn; split_ifs; reflexivity. }
  assert (I : forall m, 1 <= m < 8 ->
              js_or (js_or (CPU.FL s) (Int m)) (Int m) = js_or (CPU.FL s) (Int m)).
  { intros m Hm. destruct F as [->|(f & -> & Hf)].
    - assert (U : js_or Undefined (Int m) = Int m).
      { unfold js_or. now rewrite ToInt32_Int, wrap32_small by lia. }
      rewrite U.
      destruct (js_or_flags m m ltac:(lia) ltac:(lia)) as [-> _].
      now rewrite Z.lor_diag.
    - destruct (js_or_flags f m ltac:(lia) ltac:(lia)) as [-> B].
      destruct (js_or_flags (Z.lor f m) m ltac:(lia) ltac:(lia)) as [-> _].
      now rewrite <- Z.lor_assoc, Z.lor_diag. }
  set (t := CPU.alu ALU.CMP regA regB s).
  assert (HR : CPU.reg t = CPU.reg s) by (subst t; now rewrite (S s)).
  pose proof (alu_CMP_FL s regA regB) as HF. fold t in HF.
  assert (G : CPU.FL (CPU.alu ALU.CMP regA regB t) = CPU.FL t).
  { rewrite (alu_CMP_FL t), HR, HF.
    destruct (strict_eq (get (CPU.reg s) regA) (get (CPU.reg s) regB));
      [apply I; lia|].
    destruct (js_gt (get (CPU.reg s) regA) (get (CPU.reg s) regB));
      [apply I; lia|].
    destruct (js_lt (get (CPU.reg s) regA) (get (CPU.reg s) regB));
      [apply I; lia|].
    reflexivity. }
  rewrite (S t), G. destruct t; reflexivity.
Qed.


(** * The skeleton CPU and the full CPU *)

(** X23.  The full CPU extends the skeleton: on each of the five opcodes
    that the skeleton knows (HLT, ADD, MUL, LDI, PRN) a tick of the full
    CPU is the tick of the skeleton, from any state. *)
Theorem skeleton_tick_agrees (SP : Z) (s : CPU.t) (h : CPU.handler) :
  lookup Skeleton.branchTable (RAM.read (CPU.ram s) (CPU.PC s)) = Some h ->
  CPU.tick SP s = Skeleton.tick s.
Proof.
  intros L.
  destruct (lookup_In _ _ _ L) as (k & Hin & Hk).
  unfold CPU.tick, Skeleton.tick. cbn [CPU.IR CPU.set_IR CPU.ram CPU.PC].
  rewrite !(lookup_key _ _ _ Hk). clear L.
  cbn in Hin.
  repeat (destruct Hin as [Hin|Hin]; [inversion Hin; subst; reflexivity|]).
  destruct Hin.
Qed.

(** X24.  The skeleton stops with the report of an unknown opcode on each
    of the eighteen opcodes that only the full CPU has, leaving registers,
    memory and PC as they were. *)
Theorem skeleton_rejects_new_opcodes (s : CPU.t) (op : Z) :
  let ir := RAM.read (CPU.ram s) (CPU.PC s) in
  In op opcodes -> ~ In op [Op.HLT; Op.ADD; Op.MUL; Op.LDI; Op.PRN] ->
  key_eqb ir (Int op) = true ->
  Skeleton.tick s =
    CPU.stopClock
      (CPU.print (CPU.set_IR s ir) (console_error_cat "Unknown opcode " ir)).
Proof.
  intros ir Hin Hout Hk.
  unfold Skeleton.tick. cbn [CPU.IR CPU.set_IR CPU.ram CPU.PC]. fold ir.
  rewrite (lookup_key _ _ _ Hk).
  cbn in Hin, Hout.
  repeat (destruct Hin as [Hin|Hin]; [subst op; try reflexivity; tauto|]).
  destruct Hin.
Qed.

(** * Instances of the further properties *)

Lemma bitwise_ops_keep_bytes_witness :
  get (CPU.reg (CPU.run 7 2 (boot 7 [] add_program))) (Int 0) = Int 200 /\
  get (CPU.reg (CPU.run 7 2 (boot 7 [] add_program))) (Int 1) = Int 100 /\
  get (CPU.reg (CPU.alu ALU.XOR (Int 0) (Int 1)
                  (CPU.run 7 2 (boot 7 [] add_program)))) (Int 0) = Int 172.
Proof.
  split; [reflexivity|]. split; [reflexivity|].
  destruct (bitwise_ops_keep_bytes (CPU.run 7 2 (boot 7 [] add_program))
              (Int 0) (Int 1) 200 100 eq_refl eq_refl ltac:(lia) ltac:(lia))
    as (_ & _ & H & _).
  exact H.
Defined.

Lemma NOT_of_a_byte_is_negative_witness :
  0 <= 200 <= 255 /\
  get (CPU.reg (CPU.alu ALU.NOT (Int 0) Undefined
                  (CPU.run 7 2 (boot 7 [] add_program)))) (Int 0) = Int (-201).
Proof.
  split; [lia|].
  destruct (NOT_of_a_byte_is_negative (CPU.run 7 2 (boot 7 [] add_program))
              (Int 0) Undefined 200 eq_refl ltac:(lia)) as [H _].
  exact H.
Defined.



Lemma MOD_of_integers_witness :
  200 <> 0 /\
  get (CPU.reg (CPU.alu ALU.MOD (Int 1) (Int 0)
                  (CPU.run 7 2 (boot 7 [] add_program)))) (Int 1) = Int 100.
Proof.
  split; [lia|].
  destruct (MOD_of_integers (CPU.run 7 2 (boot 7 [] add_program))
              (Int 1) (Int 0) 100 200 eq_refl eq_refl ltac:(lia)) as [H _].
  exact H.
Defined.

Lemma INC_and_DEC_witness :
  0 <= 255 <= 255 /\
  get (CPU.reg (CPU.alu ALU.DEC (Int 0) Undefined
                  (CPU.alu ALU.INC (Int 0) Undefined
                     (CPU.run 7 1 (boot 7 [] inc_program))))) (Int 0) = Int (-1).
Proof.
  split; [lia|].
  destruct (INC_and_DEC (CPU.run 7 1 (boot 7 [] inc_program))
              (Int 0) Undefined 255 eq_refl ltac:(lia)) as [_ H].
  exact H.
Defined.


Lemma POP_effect_witness :
  get (CPU.reg (boot 7 [] stack_program)) (Int 7) = Int 244 /\
  0 <= 244 <= 255 /\ key_eqb (Int 7) (Int 0) = false /\
  get (CPU.reg (fst (CPU.POP 7 (Int 0) Undefined (boot 7 [] stack_program))))
      (Int 7) = Int 245.
Proof.
  split; [reflexivity|]. split; [lia|]. split; [reflexivity|].
  destruct (POP_effect 7 (boot 7 [] stack_program) (Int 0) Undefined 244
              eq_refl ltac:(lia) eq_refl) as (_ & H & _).
  exact H.
Defined.




Lemma tick_writes_two_registers_witness :
  key_eqb (Int 1) (Int 0) = false /\ key_eqb (Int 1) (Int 7) = false /\
  get (CPU.reg (CPU.tick 7 (CPU.run 7 2 (boot 7 [] mult_program)))) (Int 1)
    = Int 9.
Proof.
  split; [reflexivity|]. split; [reflexivity|].
  exact (tick_writes_two_registers 7 (CPU.run 7 2 (boot 7 [] mult_program))
           (Int 1) eq_refl eq_refl).
Defined.

Lemma tick_writes_memory_only_in_PUSH_witness :
  key_eqb (RAM.read (CPU.ram (boot 7 [] mult_program)) (Int 0)) (Int Op.PUSH)
    = false /\
  CPU.ram (CPU.tick 7 (boot 7 [] mult_program))
    = CPU.ram (boot 7 [] mult_program).
Proof.
  split; [reflexivity|].
  exact (tick_writes_memory_only_in_PUSH 7 (boot 7 [] mult_program) eq_refl).
Defined.

Lemma tick_prints_nothing_witness :
  lookup (CPU.branchTable 7)
    (RAM.read (CPU.ram (boot 7 [] mult_program)) (Int 0)) = Some CPU.LDI /\
  CPU.console (CPU.tick 7 (boot 7 [] mult_program)) = [].
Proof.
  split; [reflexivity|].
  exact (tick_prints_nothing 7 (boot 7 [] mult_program) CPU.LDI
           eq_refl eq_refl eq_refl).
Defined.

Lemma branchTable_domain_witness :
  (exists op : Z, In op opcodes /\ key_eqb (Int 1) (Int op) = true) /\
  lookup (CPU.branchTable 7) (Int 255) = None.
Proof.
  split.
  - apply (proj1 (branchTable_domain 7 (Int 1))). discriminate.
  - destruct (lookup (CPU.branchTable 7) (Int 255)) as [h|] eqn:E;
      [|reflexivity].
    discriminate E.
Defined.

Lemma tick_JMP_CALL_witness :
  key_eqb (RAM.read (CPU.ram (CPU.run 7 1 (boot 7 [] jmp_program))) (Int 3))
          (Int Op.JMP) = true /\
  CPU.PC (CPU.tick 7 (CPU.run 7 1 (boot 7 [] jmp_program))) = Int 6.
Proof.
  split; [reflexivity|].
  rewrite (tick_JMP_CALL 7 (CPU.run 7 1 (boot 7 [] jmp_program))
             (or_introl eq_refl)).
  reflexivity.
Defined.

Lemma JEQ_never_jumps_after_a_difference_witness :
  CPU.FL (CPU.run 7 4 (boot 7 [] jne_program)) = Int 2 /\ 2 <= 2 < 8 /\
  snd (CPU.JEQ (Int 2) Undefined
         (CPU.run 7 1 (CPU.run 7 4 (boot 7 [] jne_program)))) = Undefined.
Proof.
  split; [reflexivity|]. split; [lia|].
  exact (JEQ_never_jumps_after_a_difference 7 1
           (CPU.run 7 4 (boot 7 [] jne_program)) 2 (Int 2) Undefined
           eq_refl ltac:(lia)).
Defined.

Lemma CMP_twice_witness :
  flags_set (CPU.FL (CPU.run 7 4 (boot 7 [] jne_program))) /\
  CPU.FL (CPU.alu ALU.CMP (Int 1) (Int 0)
            (CPU.alu ALU.CMP (Int 1) (Int 0)
               (CPU.run 7 4 (boot 7 [] jne_program)))) = Int 6.
Proof.
  assert (F : flags_set (CPU.FL (CPU.run 7 4 (boot 7 [] jne_program)))).
  { right. exists 2. split; [reflexivity|lia]. }
  split; [exact F|].
  rewrite (CMP_twice (CPU.run 7 4 (boot 7 [] jne_program)) (Int 1) (Int 0) F).
  reflexivity.
Defined.


Lemma skeleton_tick_agrees_witness :
  lookup Skeleton.branchTable
    (RAM.read (CPU.ram (boot 7 [] mult_program)) (Int 0)) = Some Skeleton.LDI /\
  CPU.PC (Skeleton.tick (boot 7 [] mult_program)) = Int 3.
Proof.
  split; [reflexivity|].
  rewrite <- (skeleton_tick_agrees 7 (boot 7 [] mult_program) Skeleton.LDI
                eq_refl).
  reflexivity.
Defined.

Lemma skeleton_rejects_new_opcodes_witness :
  key_eqb (RAM.read (CPU.ram (CPU.run 7 2 (boot 7 [] stack_program))) (Int 6))
          (Int Op.PUSH) = true /\
  CPU.clock (Skeleton.tick (CPU.run 7 2 (boot 7 [] stack_program))) = false.
Proof.
  split; [reflexivity|].
  rewrite (skeleton_rejects_new_opcodes (CPU.run 7 2 (boot 7 [] stack_program))
             Op.PUSH).
  - reflexivity.
  - cbn. tauto.
  - cbn. intros H. repeat (destruct H as [H|H]; [discriminate H|]). exact H.
  - reflexivity.
Defined.
